(** * Streaming invocation and protocol translation of the Databricks
    endpoint handler (server/services/agents/handlers/databricks_endpoint.py)
    and of the agent dispatcher (server/routers/agent.py).

    Python [str] values are lists of Unicode code points ([pystr]);
    [bytes] values are lists of integers in [0, 255]. JSON values handed
    around as Python dicts and lists are the inductive [json]; a dict is an
    association list looked up by its first binding of a key. *)

From Stdlib Require Import ZArith Lia.
From stdpp Require Import base list gmap strings.

Open Scope Z_scope.

(** ** Python strings *)

Abbreviation pystr := (list Z).

(** ASCII literal to code points. *)
Fixpoint u (s : string) : pystr :=
  match s with
  | EmptyString => []
  | String a s' => Z.of_nat (Ascii.nat_of_ascii a) :: u s'
  end.
Arguments u : simpl never.

(** Python's [needle in haystack] on strings. *)
Fixpoint is_prefix (p s : pystr) : bool :=
  match p, s with
  | [], _ => true
  | c :: p', d :: s' => (c =? d) && is_prefix p' s'
  | _ :: _, [] => false
  end.

Fixpoint str_contains (needle hay : pystr) : bool :=
  is_prefix needle hay ||
  match hay with
  | [] => false
  | _ :: hay' => str_contains needle hay'
  end.

(** ** Codecs used by [fix_mojibake] *)

(** [text.encode('latin-1')]: fails on a code point above U+00FF. *)
Definition latin1_encode (s : pystr) : option (list Z) :=
  if forallb (fun c => (0 <=? c) && (c <=? 255)) s then Some s else None.

Definition in_range (lo hi b : Z) : bool := (lo <=? b) && (b <=? hi).

Definition cont_byte (b : Z) : bool := in_range 128 191 b.

(** [bytes.decode('utf-8')] in strict mode: the well-formed byte
    sequences of Unicode table 3-7 (no overlong forms, no surrogates,
    nothing above U+10FFFF); anything else raises [UnicodeDecodeError]. *)
Fixpoint utf8_decode (bs : list Z) : option pystr :=
  match bs with
  | [] => Some []
  | b1 :: r1 =>
    if in_range 0 127 b1 then
      c ← utf8_decode r1; Some (b1 :: c)
    else if in_range 194 223 b1 then
      match r1 with
      | b2 :: r2 =>
        if cont_byte b2 then
          c ← utf8_decode r2; Some ((b1 - 192) * 64 + (b2 - 128) :: c)
        else None
      | [] => None
      end
    else if in_range 224 239 b1 then
      match r1 with
      | b2 :: b3 :: r3 =>
        let ok2 :=
          if b1 =? 224 then in_range 160 191 b2
          else if b1 =? 237 then in_range 128 159 b2
          else cont_byte b2 in
        if ok2 && cont_byte b3 then
          c ← utf8_decode r3;
          Some ((b1 - 224) * 4096 + (b2 - 128) * 64 + (b3 - 128) :: c)
        else None
      | _ => None
      end
    else if in_range 240 244 b1 then
      match r1 with
      | b2 :: b3 :: b4 :: r4 =>
        let ok2 :=
          if b1 =? 240 then in_range 144 191 b2
          else if b1 =? 244 then in_range 128 143 b2
          else cont_byte b2 in
        if ok2 && cont_byte b3 && cont_byte b4 then
          c ← utf8_decode r4;
          Some ((b1 - 240) * 262144 + (b2 - 128) * 4096
                + (b3 - 128) * 64 + (b4 - 128) :: c)
        else None
      | _ => None
      end
    else None
  end.

(** [s.encode('latin-1').decode('utf-8')], [None] when either step raises. *)
Definition latin1_utf8_roundtrip (s : pystr) : option pystr :=
  b ← latin1_encode s; utf8_decode b.

(** ** [fix_mojibake] *)

(** The inner [fix_segment]: a run that fails to round-trip is kept. *)
Definition fix_segment (segment : pystr) : pystr :=
  match latin1_utf8_roundtrip segment with
  | Some r => r
  | None => segment
  end.

(** The character class [\u0080-ÿ]. *)
Definition is_latin1_ext (c : Z) : bool := in_range 128 255 c.

(** A finished match of [[\u0080-ÿ]+] (empty: no match yet). *)
Definition flush_run (run : pystr) : pystr :=
  match run with
  | [] => []
  | _ => fix_segment run
  end.

(** [re.sub(r'[\u0080-ÿ]+', fix_segment, text)], with [run] the
    characters of the current maximal match read so far. *)
Fixpoint sub_runs (run : pystr) (text : pystr) : pystr :=
  match text with
  | [] => flush_run run
  | c :: rest =>
    if is_latin1_ext c then sub_runs (run ++ [c]) rest
    else flush_run run ++ c :: sub_runs [] rest
  end.

Definition fix_mojibake (text : pystr) : pystr :=
  match text with
  | [] => text
  | _ =>
    match latin1_utf8_roundtrip text with
    | Some r => r
    | None => sub_runs [] text
    end
  end.

(** ** JSON values and the Python operations on them *)

Local Set Warnings "-register-all".

(** JSON values as [json.loads] returns them; floats are outside the
    model, every number is an [int]. *)
Inductive json : Type :=
| JNull
| JBool (b : bool)
| JInt (z : Z)
| JStr (s : pystr)
| JList (items : list json)
| JDict (kvs : list (pystr * json)).

(** [type(x).__name__]. *)
Definition py_type_name (x : json) : pystr :=
  match x with
  | JNull => u "NoneType"
  | JBool _ => u "bool"
  | JInt _ => u "int"
  | JStr _ => u "str"
  | JList _ => u "list"
  | JDict _ => u "dict"
  end.

(** Exceptions raised by the modelled code, each with its text [str(e)].
    [Upstream] is an exception raised by the serving client. *)
Inductive pyexn : Type :=
| AttributeError (msg : pystr)
| TypeError (msg : pystr)
| KeyError (msg : pystr)
| IndexError (msg : pystr)
| ValueError (msg : pystr)
| Upstream (msg : pystr).

(** [x.attr] on a value that has no such attribute. *)
Definition no_attribute (x : json) (attr : pystr) : pyexn :=
  AttributeError (u "'" ++ py_type_name x ++ u "' object has no attribute '" ++ attr ++ u "'").

(** Computations that return or raise. *)
Inductive result (A : Type) : Type :=
| Ok (a : A)
| Raise (e : pyexn).
Arguments Ok {A} a.
Arguments Raise {A} e.

Definition rbind {A B} (m : result A) (k : A -> result B) : result B :=
  match m with
  | Ok a => k a
  | Raise e => Raise e
  end.

Notation "'let*' x := m 'in' k" := (rbind m (fun x => k))
  (at level 200, x name, m at level 100, k at level 200).

(** [d.get(k)] on a dict. *)
Fixpoint dict_lookup (kvs : list (pystr * json)) (k : pystr) : option json :=
  match kvs with
  | [] => None
  | (k', v) :: kvs' => if bool_decide (k' = k) then Some v else dict_lookup kvs' k
  end.

(** [x.get(k, default)]: only a dict has a [get] method. *)
Definition py_get (x : json) (k : pystr) (default : json) : result json :=
  match x with
  | JDict kvs => Ok (from_option id default (dict_lookup kvs k))
  | _ => Raise (no_attribute x (u "get"))
  end.

(** Python truthiness, [bool(x)]. *)
Definition truthy (x : json) : bool :=
  match x with
  | JNull => false
  | JBool b => b
  | JInt z => negb (z =? 0)
  | JStr s => negb (bool_decide (s = []))
  | JList l => negb (bool_decide (l = []))
  | JDict kvs => negb (bool_decide (kvs = []))
  end.

(** [x[0]]: a list gives its head, a string its first character, an
    empty one is out of range, a dict has no key [0] ([str(KeyError(0))]
    is [0]), other values are not subscriptable. *)
Definition py_index0 (x : json) : result json :=
  match x with
  | JList (y :: _) => Ok y
  | JList [] => Raise (IndexError (u "list index out of range"))
  | JStr (c :: _) => Ok (JStr [c])
  | JStr [] => Raise (IndexError (u "string index out of range"))
  | JDict _ => Raise (KeyError (u "0"))
  | _ => Raise (TypeError (u "'" ++ py_type_name x ++ u "' object is not subscriptable"))
  end.

(** [x == 'lit'] for a string literal. *)
Definition json_is_str (x : json) (lit : pystr) : bool :=
  match x with
  | JStr s => bool_decide (s = lit)
  | _ => false
  end.


(** ** [json.dumps] with its defaults ([ensure_ascii=True], separators
    [", "] and [": "]) *)

Definition hex_digit (n : Z) : Z := if n <? 10 then 48 + n else 87 + n.

Definition hex4 (c : Z) : pystr :=
  map (fun k => hex_digit ((c / 16 ^ k) mod 16)) [3; 2; 1; 0].

(** One character of a JSON string literal: the short escapes, printable
    ASCII as is, everything else as [\uXXXX] (a surrogate pair above
    U+FFFF). *)
Definition escape_char (c : Z) : pystr :=
  if c =? 34 then [92; 34]
  else if c =? 92 then [92; 92]
  else if c =? 10 then [92; 110]
  else if c =? 13 then [92; 114]
  else if c =? 9 then [92; 116]
  else if c =? 8 then [92; 98]
  else if c =? 12 then [92; 102]
  else if in_range 32 126 c then [c]
  else if c <? 65536 then 92 :: 117 :: hex4 c
  else
    let v := c - 65536 in
    92 :: 117 :: hex4 (55296 + v / 1024) ++ 92 :: 117 :: hex4 (56320 + v mod 1024).

Definition dumps_str (s : pystr) : pystr := 34 :: flat_map escape_char s ++ [34].

Fixpoint nat_digits (fuel : nat) (n : Z) (acc : pystr) : pystr :=
  match fuel with
  | O => acc
  | S f =>
    if n <? 10 then (48 + n) :: acc
    else nat_digits f (n / 10) ((48 + n mod 10) :: acc)
  end.

Definition dumps_int (z : Z) : pystr :=
  if z <? 0 then 45 :: nat_digits (S (Z.to_nat (Z.log2 (- z)))) (- z) []
  else nat_digits (S (Z.to_nat (Z.log2 z))) z [].

(** [''.join(parts)]: every part must be a string; [i] is the index of
    the first remaining part, named in the [TypeError]. *)
Fixpoint str_join_at (i : Z) (parts : list json) : result pystr :=
  match parts with
  | [] => Ok []
  | JStr s :: rest => let* t := str_join_at (i + 1) rest in Ok (s ++ t)
  | x :: _ =>
    Raise (TypeError (u "sequence item " ++ dumps_int i ++ u ": expected str instance, "
                      ++ py_type_name x ++ u " found"))
  end.

Definition str_join (parts : list json) : result pystr := str_join_at 0 parts.

Fixpoint json_dumps (j : json) : pystr :=
  match j with
  | JNull => u "null"
  | JBool true => u "true"
  | JBool false => u "false"
  | JInt z => dumps_int z
  | JStr s => dumps_str s
  | JList l =>
    let fix items (l : list json) : pystr :=
      match l with
      | [] => []
      | x :: l' =>
        json_dumps x ++ match l' with [] => [] | _ => u ", " ++ items l' end
      end in
    [91] ++ items l ++ [93]
  | JDict kvs =>
    let fix entries (kvs : list (pystr * json)) : pystr :=
      match kvs with
      | [] => []
      | (k, v) :: kvs' =>
        dumps_str k ++ u ": " ++ json_dumps v
        ++ match kvs' with [] => [] | _ => u ", " ++ entries kvs' end
      end in
    [123] ++ entries kvs ++ [125]
  end.

(** ** The chunk translator *)

Definition lit_chunk_object : pystr := u "chat.completion.chunk".

(** The agent-format event [{"type": "response.output_text.delta",
    "delta": text}]. *)
Definition text_delta (text : pystr) : json :=
  JDict [(u "type", JStr (u "response.output_text.delta")); (u "delta", JStr text)].

(** The list comprehension over [content] when it is a list: dicts tagged
    [type == 'text'] contribute [item.get('text', '')], strings contribute
    themselves, anything else is skipped. *)
Fixpoint text_parts (items : list json) : list json :=
  match items with
  | [] => []
  | JDict kvs :: rest =>
    if match dict_lookup kvs (u "type") with
       | Some t => json_is_str t (u "text")
       | None => false
       end
    then from_option id (JStr []) (dict_lookup kvs (u "text")) :: text_parts rest
    else text_parts rest
  | JStr s :: rest => JStr s :: text_parts rest
  | _ :: rest => text_parts rest
  end.

(** [fix_mojibake(content)] on a value that may not be a string: a falsy
    value is returned as is, a non-string fails on [text.encode]. *)
Definition fix_mojibake_value (x : json) : result json :=
  match x with
  | JStr s => Ok (JStr (fix_mojibake s))
  | _ => if truthy x then Raise (no_attribute x (u "encode")) else Ok x
  end.

Definition convert_chat_completion_chunk (chunk : json) : result (option json) :=
  let* obj := py_get chunk (u "object") JNull in
  if negb (json_is_str obj lit_chunk_object) then Ok None else
  let* choices := py_get chunk (u "choices") (JList []) in
  if negb (truthy choices) then Ok None else
  let* choice0 := py_index0 choices in
  let* delta := py_get choice0 (u "delta") (JDict []) in
  let* content := py_get delta (u "content") JNull in
  if negb (truthy content) then Ok None else
  let* content :=
    match content with
    | JList items => let* s := str_join (text_parts items) in Ok (JStr s)
    | _ => Ok content
    end in
  if negb (truthy content) then Ok None else
  let* fixed := fix_mojibake_value content in
  Ok (Some (JDict [(u "type", JStr (u "response.output_text.delta")); (u "delta", fixed)])).

(** ** Server-sent-event lines *)

Definition sse_data (j : json) : pystr := u "data: " ++ json_dumps j ++ [10; 10].

Definition sse_done : pystr := u "data: [DONE]" ++ [10; 10].

Definition fmt_agent : pystr := u "agent".
Definition fmt_chat_completion : pystr := u "chat_completion".

Definition format_chunk_for_sse (chunk : json) (endpoint_format : pystr)
  : result (option pystr) :=
  if bool_decide (endpoint_format = fmt_chat_completion) then
    let* converted := convert_chat_completion_chunk chunk in
    match converted with
    | None => Ok None
    | Some c => Ok (Some (sse_data c))
    end
  else Ok (Some (sse_data chunk)).

(** ** The stream bridge: worker thread and queue *)

(** Messages put on the [asyncio.Queue]: [('chunk', chunk, fmt)],
    [('done', None, fmt)] and [('error', str(e), fmt)]. *)
Inductive qmsg : Type :=
| QChunk (chunk : json) (fmt : pystr)
| QDone (fmt : pystr)
| QError (msg : pystr) (fmt : pystr).

Definition is_terminal (m : qmsg) : bool :=
  match m with
  | QChunk _ _ => false
  | _ => true
  end.

(** What the serving client does with one [predict_stream] request: the
    chunks its iterator yields, then either the end of the iteration
    ([None]) or an exception with the given text. An exception raised
    before the first chunk is an attempt with no chunks. *)
Record attempt : Type := {
  att_chunks : list json;
  att_error : option pystr
}.

(** The upstream endpoint: its behaviour for each request payload. *)
Definition upstream := json -> attempt.

(** The process-wide [_endpoint_format_cache]. *)
Abbreviation format_cache := (gmap pystr pystr).

Definition build_agent_inputs (messages : json) : json :=
  JDict [(u "input", messages);
         (u "databricks_options", JDict [(u "return_trace", JBool true)])].

Definition build_chat_completion_inputs (messages : json) : json :=
  JDict [(u "messages", messages); (u "stream", JBool true)].

Definition get_inputs (cache : format_cache) (messages : json) (endpoint_name : pystr)
  : json :=
  if bool_decide (cache !! endpoint_name = Some fmt_chat_completion)
  then build_chat_completion_inputs messages
  else build_agent_inputs messages.

(** [stream_with_format]: the messages it puts on the queue, and the text
    of the exception it lets escape, if any. *)
Definition stream_with_format (up : upstream) (inputs : json) (fmt : pystr)
  : list qmsg * option pystr :=
  let a := up inputs in
  let pushed := map (fun c => QChunk c fmt) (att_chunks a) in
  match att_error a with
  | None => (pushed ++ [QDone fmt], None)
  | Some e => (pushed, Some e)
  end.

Definition lit_missing_chat_messages : pystr :=
  u "Missing required Chat parameter: 'messages'".
Definition lit_missing_inputs_messages : pystr :=
  u "Model is missing inputs ['messages']".
Definition lit_extra_input : pystr := u "extra inputs: ['input']".

Definition needs_chat_format (error_str : pystr) : bool :=
  str_contains lit_missing_chat_messages error_str
  || str_contains lit_missing_inputs_messages error_str
  || (str_contains lit_extra_input error_str && str_contains (u "messages") error_str).

(** One run of the worker: everything it puts on the queue, the cache it
    leaves, and the payloads of the upstream requests it made, in order. *)
Record worker_run : Type := {
  w_queue : list qmsg;
  w_cache : format_cache;
  w_requests : list json
}.

(** [if cached_format:] *)
Definition cached_truthy (cf : option pystr) : option pystr :=
  match cf with
  | Some (c :: s) => Some (c :: s)
  | _ => None
  end.

Definition consume_sync_generator (cache : format_cache) (endpoint_name : pystr)
    (messages : json) (up : upstream) : worker_run :=
  match cached_truthy (cache !! endpoint_name) with
  | Some cached_format =>
    let inputs := get_inputs cache messages endpoint_name in
    let '(q, err) := stream_with_format up inputs cached_format in
    match err with
    | None => {| w_queue := q; w_cache := cache; w_requests := [inputs] |}
    | Some e =>
      {| w_queue := q ++ [QError e cached_format]; w_cache := cache;
         w_requests := [inputs] |}
    end
  | None =>
    let inputs := build_agent_inputs messages in
    let '(q1, err1) := stream_with_format up inputs fmt_agent in
    match err1 with
    | None =>
      {| w_queue := q1; w_cache := <[endpoint_name := fmt_agent]> cache;
         w_requests := [inputs] |}
    | Some error_str =>
      if needs_chat_format error_str then
        let inputs2 := build_chat_completion_inputs messages in
        let '(q2, err2) := stream_with_format up inputs2 fmt_chat_completion in
        match err2 with
        | None =>
          {| w_queue := q1 ++ q2;
             w_cache := <[endpoint_name := fmt_chat_completion]> cache;
             w_requests := [inputs; inputs2] |}
        | Some retry_e =>
          {| w_queue := q1 ++ q2 ++ [QError retry_e fmt_chat_completion];
             w_cache := cache; w_requests := [inputs; inputs2] |}
        end
      else
        {| w_queue := q1 ++ [QError error_str fmt_agent]; w_cache := cache;
           w_requests := [inputs] |}
    end
  end.

(** [{"type": "error", "error": data}] *)
Definition error_event (msg : pystr) : json :=
  JDict [(u "type", JStr (u "error")); (u "error", JStr msg)].

(** [str(e)]. *)
Definition exn_text (e : pyexn) : pystr :=
  match e with
  | AttributeError m | TypeError m | KeyError m | IndexError m | ValueError m | Upstream m => m
  end.

(** The consumer loop of [predict_stream] over the queue contents: the
    strings it yields and whether it left the loop. On an exhausted queue
    without a terminal message [await queue.get()] would wait forever. *)
Fixpoint consume_queue (q : list qmsg) : list pystr * bool :=
  match q with
  | [] => ([], false)
  | QChunk data fmt :: q' =>
    match format_chunk_for_sse data fmt with
    | Ok (Some formatted) => let '(out, stop) := consume_queue q' in (formatted :: out, stop)
    | Ok None => consume_queue q'
    | Raise e => ([sse_data (error_event (exn_text e)); sse_done], true)
    end
  | QError data _ :: _ => ([sse_data (error_event data); sse_done], true)
  | QDone _ :: _ => ([sse_done], true)
  end.

(** [predict_stream]: the worker fills the queue (in FIFO order), the
    consumer renders it. *)
Definition predict_stream (cache : format_cache) (messages : json) (endpoint_name : pystr)
    (up : upstream) : list pystr * bool * worker_run :=
  let w := consume_sync_generator cache endpoint_name messages up in
  (consume_queue (w_queue w), w).

(** ** Successive calls in one process

    Each call runs the worker against the cache left by the calls before
    it; the log records, per call, the endpoint, the messages and the
    upstream payloads sent and the cache the call left. *)

Record call : Type := {
  call_endpoint : pystr;
  call_messages : json;
  call_upstream : upstream
}.

Record call_log : Type := {
  log_endpoint : pystr;
  log_messages : json;
  log_requests : list json;
  log_cache : format_cache
}.

Fixpoint run_calls (cache : format_cache) (calls : list call)
  : format_cache * list call_log :=
  match calls with
  | [] => (cache, [])
  | c :: cs =>
    let w := consume_sync_generator cache (call_endpoint c) (call_messages c) (call_upstream c) in
    let '(final, logs) := run_calls (w_cache w) cs in
    (final, {| log_endpoint := call_endpoint c; log_messages := call_messages c;
               log_requests := w_requests w; log_cache := w_cache w |} :: logs)
  end.

(** ** Handlers and the dispatcher *)

(** One character of a string's [repr] quoted with [q]: the quote and the
    backslash escaped, [\t], [\n], [\r], the other non-printable
    characters up to U+00FF as [\xhh]. Characters above U+00FF are kept as
    they are (Python also escapes the non-printable ones among them). *)
Definition repr_char (q c : Z) : pystr :=
  if (c =? q) || (c =? 92) then [92; c]
  else if c =? 9 then [92; 116]
  else if c =? 10 then [92; 110]
  else if c =? 13 then [92; 114]
  else if (c <? 32) || (c =? 127) || in_range 128 160 c || (c =? 173)
  then [92; 120; hex_digit (c / 16 mod 16); hex_digit (c mod 16)]
  else [c].

(** [repr(s)]: single quotes, unless [s] has a single quote and no double
    quote. *)
Definition repr_str (s : pystr) : pystr :=
  let q := if existsb (Z.eqb 39) s && negb (existsb (Z.eqb 34) s) then 34 else 39 in
  q :: flat_map (repr_char q) s ++ [q].

(** [repr(x)]. *)
Fixpoint py_repr (j : json) : pystr :=
  match j with
  | JNull => u "None"
  | JBool true => u "True"
  | JBool false => u "False"
  | JInt z => dumps_int z
  | JStr s => repr_str s
  | JList l =>
    let fix items (l : list json) : pystr :=
      match l with
      | [] => []
      | x :: l' =>
        py_repr x ++ match l' with [] => [] | _ => u ", " ++ items l' end
      end in
    [91] ++ items l ++ [93]
  | JDict kvs =>
    let fix entries (kvs : list (pystr * json)) : pystr :=
      match kvs with
      | [] => []
      | (k, v) :: kvs' =>
        repr_str k ++ u ": " ++ py_repr v
        ++ match kvs' with [] => [] | _ => u ", " ++ entries kvs' end
      end in
    [123] ++ entries kvs ++ [125]
  end.

(** [str(x)] inside f-strings: a string is itself, any other value its
    [repr]. *)
Definition py_str (x : json) : pystr :=
  match x with
  | JStr s => s
  | _ => py_repr x
  end.

(** [ConfigLoader.get_agent_by_id] over the [agents] list of agents.json. *)
Fixpoint get_agent_by_id (agents : list json) (agent_id : pystr) : result (option json) :=
  match agents with
  | [] => Ok None
  | JStr a :: rest =>
    if bool_decide (a = agent_id) then Ok (Some (JDict [(u "endpoint_name", JStr a)]))
    else get_agent_by_id rest agent_id
  | agent :: rest =>
    let* ep := py_get agent (u "endpoint_name") JNull in
    let* matched :=
      if json_is_str ep agent_id then Ok true
      else let* id := py_get agent (u "id") JNull in Ok (json_is_str id agent_id) in
    if matched then
      match agent with
      | JDict kvs =>
        match dict_lookup kvs (u "endpoint_name"), dict_lookup kvs (u "id") with
        | None, Some id => Ok (Some (JDict (kvs ++ [(u "endpoint_name", id)])))
        | _, _ => Ok (Some (JDict kvs))
        end
      | _ => Raise (no_attribute agent (u "get"))
      end
    else get_agent_by_id rest agent_id
  end.

Inductive handler_class : Type :=
| DatabricksEndpointHandler.

(** A constructed handler: [self.agent_config] and [self.endpoint_name]. *)
Record handler : Type := {
  h_agent_config : json;
  h_endpoint_name : json
}.

(** [DatabricksEndpointHandler.__init__]: no request is made here. *)
Definition construct_handler (cls : handler_class) (agent_config : json) : result handler :=
  match cls with
  | DatabricksEndpointHandler =>
    let* endpoint_name := py_get agent_config (u "endpoint_name") JNull in
    if truthy endpoint_name then
      Ok {| h_agent_config := agent_config; h_endpoint_name := endpoint_name |}
    else
      let* id := py_get agent_config (u "id") JNull in
      Raise (ValueError (u "Agent " ++ py_str id ++ u " has no endpoint_name configured"))
  end.

(** [DEPLOYMENT_HANDLERS]. *)
Definition DEPLOYMENT_HANDLERS : list (pystr * handler_class) :=
  [(u "databricks-endpoint", DatabricksEndpointHandler)].

(** [DEPLOYMENT_HANDLERS.get(deployment_type)]: the keys are strings, so
    [None], a bool or an int finds nothing, and a list or a dict cannot be
    hashed and raises [TypeError]. *)
Definition lookup_handler (deployment_type : json) : result (option handler_class) :=
  match deployment_type with
  | JStr s =>
    Ok ((fix go (r : list (pystr * handler_class)) :=
           match r with
           | [] => None
           | (k, c) :: r' => if bool_decide (k = s) then Some c else go r'
           end) DEPLOYMENT_HANDLERS)
  | JList _ | JDict _ =>
    Raise (TypeError (u "unhashable type: '" ++ py_type_name deployment_type ++ u "'"))
  | _ => Ok None
  end.

Definition supported_types : pystr := u "databricks-endpoint".

(** What an [invoke_endpoint] request returns. *)
Inductive dispatch_outcome : Type :=
| DStructuredError (body : json)            (* a dict returned as the response *)
| DStreaming (h : handler) (messages : json)  (* StreamingResponse(handler.invoke_stream(...)) *)
| DInvoke (h : handler) (messages : json)     (* handler.invoke(...) *)
| DModelServing (endpoint_name : json) (messages : json)  (* model_serving_endpoint(...) *)
| DRaised (e : pyexn).                       (* an exception escapes the route *)

(** Side effects performed before the route returns. *)
Inductive effect : Type :=
| EConstructHandler
| ENetworkCall.

Definition error_body (err msg : pystr) : json :=
  JDict [(u "error", JStr err); (u "message", JStr msg)].

Definition agent_found (agent : option json) : option json :=
  match agent with
  | Some a => if truthy a then Some a else None
  | None => None
  end.

(** [invoke_endpoint] of server/routers/agent.py. *)
Definition router_invoke_endpoint (agents : list json) (agent_id : pystr)
    (messages : json) (stream : bool) : dispatch_outcome * list effect :=
  match get_agent_by_id agents agent_id with
  | Raise e => (DRaised e, [])
  | Ok agent =>
    match agent_found agent with
    | None =>
      (DStructuredError (error_body (u "Agent not found: " ++ agent_id)
                                    (u "Please check your agent configuration")), [])
    | Some agent =>
      match py_get agent (u "deployment_type") (JStr (u "databricks-endpoint")) with
      | Raise e => (DRaised e, [])
      | Ok deployment_type =>
        match lookup_handler deployment_type with
        | Raise e => (DRaised e, [])
        | Ok None =>
          (DStructuredError
             (error_body (u "Unsupported deployment type")
                (u "Deployment type " ++ [34] ++ py_str deployment_type
                 ++ [34] ++ u " is not supported. Supported types: " ++ supported_types)), [])
        | Ok (Some handler_cls) =>
          match construct_handler handler_cls agent with
          | Raise e => (DRaised e, [EConstructHandler])
          | Ok h =>
            if stream then (DStreaming h messages, [EConstructHandler])
            else (DInvoke h messages, [EConstructHandler; ENetworkCall])
          end
        end
      end
    end
  end.

(** [invoke_endpoint] of server/app.py, the other route that dispatches on
    the deployment type. *)
Definition app_invoke_endpoint (agents : list json) (agent_id : pystr) (messages : json)
  : dispatch_outcome * list effect :=
  match get_agent_by_id agents agent_id with
  | Raise e => (DRaised e, [])
  | Ok agent =>
    match agent_found agent with
    | None =>
      (DStructuredError (error_body (u "Agent not found: " ++ agent_id)
                                    (u "Please check your agent configuration")), [])
    | Some agent =>
      match py_get agent (u "deployment_type") (JStr (u "databricks-endpoint")) with
      | Raise e => (DRaised e, [])
      | Ok deployment_type =>
        if json_is_str deployment_type (u "databricks-endpoint") then
          match py_get agent (u "endpoint_name") JNull with
          | Raise e => (DRaised e, [])
          | Ok endpoint_name =>
            if truthy endpoint_name then (DModelServing endpoint_name messages, [ENetworkCall])
            else
              (DStructuredError
                 (error_body (u "Invalid agent configuration")
                    (u "Agent " ++ agent_id ++ u " has no endpoint_name configured")), [])
          end
        else if json_is_str deployment_type (u "langchain-agent") then
          (DStructuredError
             (error_body (u "Not implemented")
                (u "LangChain agents are not yet supported. Please use databricks-endpoint type.")), [])
        else
          (DStructuredError
             (error_body (u "Invalid deployment type")
                (u "Unknown deployment_type: " ++ py_str deployment_type
                 ++ u ". Supported types: databricks-endpoint, langchain-agent")), [])
      end
    end
  end.

(** ** The handler the router uses (server/agents/handlers/databricks_endpoint.py) *)

(** [str.isspace], the characters [str.strip()] removes. *)
Definition py_isspace (c : Z) : bool :=
  in_range 9 13 c || in_range 28 32 c || (c =? 133) || (c =? 160) || (c =? 5760)
  || in_range 8192 8202 c || (c =? 8232) || (c =? 8233) || (c =? 8239)
  || (c =? 8287) || (c =? 12288).

Fixpoint lstrip (s : pystr) : pystr :=
  match s with
  | [] => []
  | c :: s' => if py_isspace c then lstrip s' else s
  end.

(** [s.strip()]. *)
Definition strip (s : pystr) : pystr := rev (lstrip (rev (lstrip s))).

Definition lit_done_line : pystr := u "data: [DONE]".

(** One line of [response.aiter_lines()] in [invoke_stream]: the string it
    yields, if any. [loads] is [json.loads], [None] standing for a
    [JSONDecodeError]; [event.get('id')] raises on a value that is not a
    dict, and only [JSONDecodeError] is caught. *)
Definition invoke_stream_line (loads : pystr -> option json) (line : pystr)
  : result (option pystr) :=
  if bool_decide (line = []) then Ok None
  else if bool_decide (strip line = []) then Ok None
  else if bool_decide (strip line = lit_done_line) || bool_decide (strip line = u "[DONE]")
  then Ok (Some (lit_done_line ++ [10; 10]))
  else
    let json_str := strip line in
    let json_str :=
      if is_prefix (u "data: ") json_str then strip (drop 6 json_str)
      else if is_prefix (u "data:") json_str then strip (drop 5 json_str)
      else json_str in
    if bool_decide (json_str = []) then Ok None
    else
      match loads json_str with
      | None => Ok None
      | Some event =>
        let* _ := py_get event (u "id") JNull in
        Ok (Some (u "data: " ++ json_str ++ [10; 10]))
      end.

(** The [async for line in response.aiter_lines()] loop: the strings
    yielded, and the exception that ends the generator, if any. *)
Fixpoint invoke_stream_lines (loads : pystr -> option json) (lines : list pystr)
  : list pystr * option pyexn :=
  match lines with
  | [] => ([], None)
  | line :: rest =>
    match invoke_stream_line loads line with
    | Raise e => ([], Some e)
    | Ok None => invoke_stream_lines loads rest
    | Ok (Some y) => let '(out, err) := invoke_stream_lines loads rest in (y :: out, err)
    end
  end.

(** What [WorkspaceClient()] offers: [config.host], [config.token] (each
    [None] or a string) and the outcome of [config.authenticate()];
    [Raise] when the client cannot be built. *)
Record sdk_config : Type := {
  cfg_host : json;
  cfg_token : json;
  cfg_authenticate : result json
}.

Definition lit_https : pystr := u "https://".

(** [if not host.startswith('https://'): host = f'https://{host}'] *)
Definition ensure_https (host : pystr) : pystr :=
  if is_prefix lit_https host then host else lit_https ++ host.

(** The [try] block of [get_databricks_credentials]. *)
Definition credentials_from_sdk (sdk : result sdk_config) : result (pystr * json) :=
  let* w := sdk in
  let host := cfg_host w in
  let* token :=
    if truthy (cfg_token w) then Ok (cfg_token w)
    else let* auth := cfg_authenticate w in py_get auth (u "access_token") (JStr []) in
  if negb (truthy host) || negb (truthy token) then
    Raise (ValueError (u "WorkspaceClient did not provide host or token"))
  else
    match host with
    | JStr h => Ok (ensure_https h, token)
    | _ => Raise (no_attribute host (u "startswith"))
    end.

(** [get_databricks_credentials]: any exception of the [try] block falls
    back to [DATABRICKS_HOST] and [DATABRICKS_TOKEN] ([os.getenv(k, '')]). *)
Definition get_databricks_credentials (sdk : result sdk_config) (env_host env_token : pystr)
  : result (pystr * json) :=
  match credentials_from_sdk sdk with
  | Ok r => Ok r
  | Raise _ =>
    if bool_decide (env_host = []) || bool_decide (env_token = []) then
      Raise (ValueError (u "Unable to get Databricks credentials. Set DATABRICKS_HOST and DATABRICKS_TOKEN in .env.local, or ensure WorkspaceClient can authenticate."))
    else Ok (ensure_https env_host, JStr env_token)
  end.

(** ** The chunk content as the wire format describes it *)

(** The text a chat-completion [content] carries, as the wire format
    describes it: a string is its own text, a list contributes its string
    items and the [text] of its parts tagged ["type": "text"], in order. *)
Definition part_text (item : json) : pystr :=
  match item with
  | JStr s => s
  | JDict kvs =>
    match dict_lookup kvs (u "type") with
    | Some t =>
      if json_is_str t (u "text") then
        match dict_lookup kvs (u "text") with
        | Some (JStr s) => s
        | _ => []
        end
      else []
    | None => []
    end
  | _ => []
  end.

Definition content_text (content : json) : pystr :=
  match content with
  | JStr s => s
  | JList items => concat (map part_text items)
  | _ => []
  end.

(** Content of the wire shape [<string|list>] (or absent): a part tagged
    ["type": "text"] carries a string [text] or none. *)
Definition wf_part (item : json) : Prop :=
  match item with
  | JDict kvs =>
    match dict_lookup kvs (u "type") with
    | Some t =>
      json_is_str t (u "text") = true ->
      match dict_lookup kvs (u "text") with
      | Some (JStr _) | None => True
      | Some _ => False
      end
    | None => True
    end
  | _ => True
  end.

Definition wf_content (content : json) : Prop :=
  match content with
  | JNull | JStr _ => True
  | JList items => Forall wf_part items
  | _ => False
  end.

(** ** The corruption [fix_mojibake] undoes

    [str.encode('utf-8')] of a string of Unicode scalar values; read back
    as Latin-1, its bytes are the mojibake code points themselves. *)
Definition utf8_encode_char (c : Z) : list Z :=
  if c <? 128 then [c]
  else if c <? 2048 then [192 + c / 64; 128 + c mod 64]
  else if c <? 65536 then [224 + c / 4096; 128 + (c / 64) mod 64; 128 + c mod 64]
  else [240 + c / 262144; 128 + (c / 4096) mod 64; 128 + (c / 64) mod 64; 128 + c mod 64].

Definition utf8_encode (s : pystr) : list Z := flat_map utf8_encode_char s.

(** A Unicode scalar value: a code point that is not a surrogate. *)
Definition scalar_value (c : Z) : Prop := 0 <= c <= 1114111 /\ ~ (55296 <= c <= 57343).

(** ** Vocabulary of the properties *)

(** The events a chat-completion chunk turns into, when it converts. *)
Definition chat_events (c : json) : list pystr :=
  match convert_chat_completion_chunk c with
  | Ok (Some ev) => [sse_data ev]
  | _ => []
  end.

(** A character [str.strip()] removes. *)
Definition is_space (c : Z) : Prop := py_isspace c = true.

(** ** Concrete scenarios *)

Definition scenario_messages : json :=
  JList [JDict [(u "role", JStr (u "user")); (u "content", JStr (u "Hello"))]].

(** A chat-completion chunk carrying [text]. *)
Definition chat_chunk (text : pystr) : json :=
  JDict [(u "object", JStr lit_chunk_object);
         (u "choices", JList [JDict [(u "delta", JDict [(u "content", JStr text)])]])].

(** An endpoint that only speaks the chat-completion dialect: it refuses
    the agent payload with the error text of scenario B. *)
Definition chat_only_upstream : upstream := fun inputs =>
  match inputs with
  | JDict ((k, _) :: _) =>
    if bool_decide (k = u "input")
    then {| att_chunks := []; att_error := Some lit_missing_chat_messages |}
    else {| att_chunks := [chat_chunk (u "Hi")]; att_error := None |}
  | _ => {| att_chunks := []; att_error := None |}
  end.

(** An endpoint that streams part of an answer to the agent payload
    before refusing it, and answers the chat-completion payload. *)
Definition partial_then_chat_upstream : upstream := fun inputs =>
  match inputs with
  | JDict ((k, _) :: _) =>
    if bool_decide (k = u "input")
    then {| att_chunks := [JStr (u "partial")]; att_error := Some lit_missing_chat_messages |}
    else {| att_chunks := [chat_chunk (u "Hi")]; att_error := None |}
  | _ => {| att_chunks := []; att_error := None |}
  end.

(** An endpoint that is down. *)
Definition failing_upstream : upstream := fun _ =>
  {| att_chunks := []; att_error := Some (u "503 Service Unavailable") |}.

(** agents.json entries: one whose [endpoint_name] is null, one with an
    unregistered deployment type. *)
Definition agents_missing_endpoint : list json :=
  [JDict [(u "id", JStr (u "a1")); (u "endpoint_name", JNull);
          (u "deployment_type", JStr (u "databricks-endpoint"))]].

Definition agent_foo : json :=
  JDict [(u "id", JStr (u "a2")); (u "endpoint_name", JStr (u "ep-2"));
         (u "deployment_type", JStr (u "foo"))].

Definition agents_foo : list json := [agent_foo].

(** * Properties *)

(** ** Text repair *)

Lemma utf8_decode_ascii (s : pystr) :
  Forall (fun c => 0 <= c <= 127) s -> utf8_decode s = Some s.
Proof.
  induction 1 as [|c s Hc _ IH]; [reflexivity|].
  simpl. unfold in_range.
  replace ((0 <=? c) && (c <=? 127)) with true
    by (symmetry; apply andb_true_intro; split; apply Z.leb_le; lia).
  rewrite IH. reflexivity.
Qed.

Lemma sub_runs_no_ext (s : pystr) :
  Forall (fun c => is_latin1_ext c = false) s -> sub_runs [] s = s.
Proof.
  induction 1 as [|c s Hc _ IH]; [reflexivity|].
  simpl. rewrite Hc, IH. reflexivity.
Qed.

Lemma is_latin1_ext_false (c : Z) : ~ (128 <= c <= 255) -> is_latin1_ext c = false.
Proof.
  intros H. unfold is_latin1_ext, in_range.
  destruct (128 <=? c) eqn:E1; destruct (c <=? 255) eqn:E2; try reflexivity.
  apply Z.leb_le in E1; apply Z.leb_le in E2. lia.
Qed.

(** The empty-string guard is subsumed: [''] round-trips to itself. *)
Lemma fix_mojibake_eq (s : pystr) :
  fix_mojibake s =
  match latin1_utf8_roundtrip s with
  | Some r => r
  | None => sub_runs [] s
  end.
Proof. destruct s; reflexivity. Qed.

(** A string with no character of the block U+0080..U+00FF is a fixed
    point of the repair. *)
Lemma fix_mojibake_no_ext (s : pystr) :
  (forall c, c ∈ s -> ~ (128 <= c <= 255)) -> fix_mojibake s = s.
Proof.
  intros Hs. rewrite fix_mojibake_eq.
  unfold latin1_utf8_roundtrip, latin1_encode.
  destruct (forallb (fun c => (0 <=? c) && (c <=? 255)) s) eqn:Hall; simpl.
  - rewrite utf8_decode_ascii; [reflexivity|]. apply Forall_forall. intros c Hc.
    rewrite forallb_forall in Hall. specialize (Hall c (proj1 (list_elem_of_In s c) Hc)).
    apply andb_prop in Hall as [H1 H2]. apply Z.leb_le in H1. apply Z.leb_le in H2.
    assert (Hn := Hs c Hc). lia.
  - apply sub_runs_no_ext. apply Forall_forall. intros c Hc.
    apply is_latin1_ext_false. by apply Hs.
Qed.

(** ** Chunk translation *)

Lemma join_text_parts_at (items : list json) :
  Forall wf_part items ->
  forall i, str_join_at i (text_parts items) = Ok (concat (map part_text items)).
Proof.
  induction 1 as [|it items Hit _ IH]; intros i; [reflexivity|].
  destruct it as [| | |s|l|kvs]; simpl; try exact (IH i).
  - rewrite IH. reflexivity.
  - simpl in Hit.
    destruct (dict_lookup kvs (u "type")) as [t|]; [|exact (IH i)].
    destruct (json_is_str t (u "text")) eqn:Ht; [|exact (IH i)].
    specialize (Hit eq_refl).
    destruct (dict_lookup kvs (u "text")) as [[]|]; try contradiction; simpl;
      rewrite IH; reflexivity.
Qed.

Lemma join_text_parts (items : list json) :
  Forall wf_part items -> str_join (text_parts items) = Ok (concat (map part_text items)).
Proof. intros H. exact (join_text_parts_at items H 0). Qed.

Lemma truthy_str (s : pystr) : truthy (JStr s) = negb (bool_decide (s = [])).
Proof. reflexivity. Qed.

Lemma json_is_str_refl (s : pystr) : json_is_str (JStr s) s = true.
Proof. unfold json_is_str. by apply bool_decide_eq_true. Qed.

Lemma json_is_str_ne (x : json) (lit : pystr) :
  (forall s, x = JStr s -> s <> lit) -> json_is_str x lit = false.
Proof.
  intros H. destruct x; try reflexivity.
  unfold json_is_str. apply bool_decide_eq_false. by apply H.
Qed.
(** Claim C10: a chunk tagged ["chat.completion.chunk"] whose [choices]
    list is empty, or whose first choice (an object) has no [delta], or whose
    [delta] has no [content], is translated to no event: the translator
    returns [None] and raises nothing. *)
Theorem convert_tagged_malformed_none (kvs : list (pystr * json)) :
  dict_lookup kvs (u "object") = Some (JStr lit_chunk_object) ->
  dict_lookup kvs (u "choices") = Some (JList []) \/
  (exists c0 rest, dict_lookup kvs (u "choices") = Some (JList (JDict c0 :: rest)) /\
     (dict_lookup c0 (u "delta") = None \/
      exists d, dict_lookup c0 (u "delta") = Some (JDict d) /\
                dict_lookup d (u "content") = None)) ->
  convert_chat_completion_chunk (JDict kvs) = Ok None.
Proof.
  intros Hobj Hch. unfold convert_chat_completion_chunk. cbn [py_get rbind].
  rewrite Hobj. cbn [from_option id]. rewrite json_is_str_refl. cbn [negb].
  destruct Hch as [Hch | (c0 & rest & Hch & Hd)]; rewrite Hch; [reflexivity|].
  cbn [from_option id truthy negb py_index0 rbind py_get].
  destruct Hd as [Hd | (d & Hd & Hc)]; rewrite Hd; cbn [from_option id py_get rbind].
  - reflexivity.
  - rewrite Hc. reflexivity.
Qed.

(** Claim C5: a chunk not tagged ["chat.completion.chunk"] yields no
    event; for a tagged chunk whose [choices[0].delta.content] has the wire
    shape (absent, a string, or a list of parts), the text is the string or
    the in-order concatenation of the string items and of the [text] fields
    of the parts tagged ["type": "text"]; an empty text yields no event and
    any other text exactly one [TextDelta] carrying the repaired text. *)
Theorem convert_chat_completion_chunk_spec :
  (forall kvs : list (pystr * json),
     (forall s, dict_lookup kvs (u "object") = Some (JStr s) -> s <> lit_chunk_object) ->
     convert_chat_completion_chunk (JDict kvs) = Ok None) /\
  (forall (kvs c0 d : list (pystr * json)) (rest : list json) (content : json),
     dict_lookup kvs (u "object") = Some (JStr lit_chunk_object) ->
     dict_lookup kvs (u "choices") = Some (JList (JDict c0 :: rest)) ->
     from_option id (JDict []) (dict_lookup c0 (u "delta")) = JDict d ->
     from_option id JNull (dict_lookup d (u "content")) = content ->
     wf_content content ->
     convert_chat_completion_chunk (JDict kvs) =
       Ok (if bool_decide (content_text content = []) then None
           else Some (text_delta (fix_mojibake (content_text content))))).
Proof.
  split.
  - intros kvs Hobj. unfold convert_chat_completion_chunk. cbn [py_get rbind].
    rewrite json_is_str_ne; [reflexivity|].
    intros s Hs. destruct (dict_lookup kvs (u "object")) eqn:E; cbn in Hs; [|discriminate].
    subst j. by apply Hobj.
  - intros kvs c0 d rest content Hobj Hch Hd Hc Hwf.
    unfold convert_chat_completion_chunk. cbn [py_get rbind].
    rewrite Hobj, Hch. cbn [from_option id]. rewrite json_is_str_refl.
    change (truthy (JList (JDict c0 :: rest))) with true.
    cbn [negb py_index0 rbind py_get]. rewrite Hd. cbn [rbind py_get]. rewrite Hc.
    destruct content as [| | |s|items|kvs']; try contradiction.
    + reflexivity.
    + cbn [content_text]. rewrite truthy_str.
      destruct (bool_decide (s = [])) eqn:E; cbn [negb rbind]; [reflexivity|].
      rewrite truthy_str, E. reflexivity.
    + cbn [content_text wf_content] in *.
      change (truthy (JList items)) with (negb (bool_decide (items = []))).
      destruct (bool_decide (items = [])) eqn:Ei.
      * apply bool_decide_eq_true in Ei. subst items. reflexivity.
      * cbn [negb rbind]. rewrite join_text_parts by exact Hwf. cbn [rbind].
        rewrite truthy_str.
        destruct (bool_decide (concat (map part_text items) = [])); reflexivity.
Qed.

Lemma convert_tagged_malformed_none_witness :
  dict_lookup [(u "object", JStr lit_chunk_object);
               (u "choices", JList [JDict [(u "finish_reason", JStr (u "stop"))]])]
    (u "object") = Some (JStr lit_chunk_object) /\
  convert_chat_completion_chunk
    (JDict [(u "object", JStr lit_chunk_object);
            (u "choices", JList [JDict [(u "finish_reason", JStr (u "stop"))]])]) = Ok None.
Proof.
  split; [reflexivity|].
  apply convert_tagged_malformed_none; [reflexivity|].
  right. eexists _, _. split; [reflexivity|]. left. reflexivity.
Defined.

(** Scenario C: [[{"type":"text","text":"Hi"}, {"type":"text","text":" there"}]]
    gives the single event [TextDelta "Hi there"]; a usage-statistics object
    gives nothing. *)
Lemma convert_chat_completion_chunk_spec_witness :
  convert_chat_completion_chunk
    (JDict [(u "object", JStr (u "chat.completion")); (u "usage", JDict [])]) = Ok None /\
  convert_chat_completion_chunk
    (JDict [(u "object", JStr lit_chunk_object);
            (u "choices",
             JList [JDict [(u "delta",
                            JDict [(u "content",
                                    JList [JDict [(u "type", JStr (u "text"));
                                                  (u "text", JStr (u "Hi"))];
                                           JDict [(u "type", JStr (u "text"));
                                                  (u "text", JStr (u " there"))]])])]])])
  = Ok (Some (text_delta (u "Hi there"))).
Proof.
  split.
  - apply (proj1 convert_chat_completion_chunk_spec).
    intros s Hs. injection Hs as <-. vm_compute. discriminate.
  - eapply eq_trans.
    + eapply (proj2 convert_chat_completion_chunk_spec);
        [reflexivity | reflexivity | reflexivity | reflexivity |].
      repeat constructor.
    + vm_compute. reflexivity.
Defined.

(** Claim C4 fails: text mojibaked twice, U+00C3 U+0083 U+00C2 U+00A9, is
    repaired to "Ã©" and the repair of that is "é". *)
Lemma fix_mojibake_not_idempotent :
  ~ (forall s, fix_mojibake (fix_mojibake s) = fix_mojibake s).
Proof.
  intros H. specialize (H [0xC3; 0x83; 0xC2; 0xA9]).
  vm_compute in H. discriminate H.
Qed.

(** Claim C4, as amended: a string with no character in U+0080..U+00FF
    (pure ASCII, pure emoji, or a mix of them) is returned unchanged, so
    applying the repair twice gives the same result as applying it once. *)
Theorem fix_mojibake_outside_block_fixed (s : pystr) :
  Forall (fun c => ~ (128 <= c <= 255)) s ->
  fix_mojibake s = s /\ fix_mojibake (fix_mojibake s) = fix_mojibake s.
Proof.
  intros Hs.
  assert (Hfix : fix_mojibake s = s).
  { apply fix_mojibake_no_ext. intros c Hc. exact (proj1 (Forall_forall _ s) Hs c Hc). }
  split; [exact Hfix|]. rewrite Hfix. exact Hfix.
Qed.

Lemma fix_mojibake_outside_block_fixed_witness :
  Forall (fun c => ~ (128 <= c <= 255)) (u "Hi " ++ [0x1F44B]) /\
  fix_mojibake (u "Hi " ++ [0x1F44B]) = u "Hi " ++ [0x1F44B] /\
  fix_mojibake (fix_mojibake (u "Hi " ++ [0x1F44B])) = fix_mojibake (u "Hi " ++ [0x1F44B]).
Proof.
  assert (H : Forall (fun c => ~ (128 <= c <= 255)) (u "Hi " ++ [0x1F44B])).
  { change (u "Hi " ++ [0x1F44B]) with [72; 105; 32; 0x1F44B].
    repeat constructor; cbv beta; lia. }
  split; [exact H|]. apply fix_mojibake_outside_block_fixed. exact H.
Defined.

(** Claim C7 fails: the two characters "â€" (U+00E2 U+20AC) are not a
    Latin-1 misdecoding, the repair leaves them as they are. *)
Lemma fix_mojibake_scenario_d_fails :
  ~ (fix_mojibake [0xE2; 0x20AC] = [0x2014] /\
     fix_mojibake (u "Hi " ++ [0x1F44B]) = u "Hi " ++ [0x1F44B]).
Proof. intros [H _]. vm_compute in H. discriminate H. Qed.

(** Claim C7, as amended: the Latin-1 misdecoding of the em dash's UTF-8
    bytes, U+00E2 U+0080 U+0094, is repaired to "—"; the two characters
    "â€" (U+00E2 U+20AC) and the text "Hi 👋" are returned unchanged. *)
Theorem fix_mojibake_scenario_d :
  fix_mojibake [0xE2; 0x80; 0x94] = [0x2014] /\
  fix_mojibake [0xE2; 0x20AC] = [0xE2; 0x20AC] /\
  fix_mojibake (u "Hi " ++ [0x1F44B]) = u "Hi " ++ [0x1F44B].
Proof. split; [|split]; vm_compute; reflexivity. Qed.

(** ** The worker and the consumer *)

Lemma chunks_nonterminal (l : list json) (fmt : pystr) :
  Forall (fun m => is_terminal m = false) (map (fun c => QChunk c fmt) l).
Proof. induction l; simpl; constructor; auto. Qed.

Create HintDb bridge.
#[local] Hint Resolve chunks_nonterminal Forall_app_2 : bridge.

(** Every run of the worker ends its queue with exactly one terminal
    message, preceded by chunks only. *)
Lemma worker_queue_shape (cache : format_cache) (ep : pystr) (messages : json) (up : upstream) :
  exists pre t, w_queue (consume_sync_generator cache ep messages up) = pre ++ [t] /\
    is_terminal t = true /\ Forall (fun m => is_terminal m = false) pre.
Proof.
  unfold consume_sync_generator, stream_with_format.
  destruct (cached_truthy (cache !! ep)) as [cf|].
  - destruct (att_error (up (get_inputs cache messages ep))); cbn [w_queue].
    + eexists _, _. split; [reflexivity|]. split; [reflexivity|]. auto with bridge.
    + eexists _, _. split; [reflexivity|]. split; [reflexivity|]. auto with bridge.
  - destruct (att_error (up (build_agent_inputs messages))) as [e|]; cbn [w_queue].
    + destruct (needs_chat_format e); cbn [w_queue].
      * destruct (att_error (up (build_chat_completion_inputs messages))); cbn [w_queue].
        -- eexists _, _. split; [by rewrite app_assoc|]. split; [reflexivity|].
           auto with bridge.
        -- eexists _, _. split; [by rewrite app_assoc|]. split; [reflexivity|].
           auto with bridge.
      * eexists _, _. split; [reflexivity|]. split; [reflexivity|]. auto with bridge.
    + eexists _, _. split; [reflexivity|]. split; [reflexivity|]. auto with bridge.
Qed.

Lemma consume_ignores_after (pre : list qmsg) (t : qmsg) (rest : list qmsg) :
  Forall (fun m => is_terminal m = false) pre -> is_terminal t = true ->
  consume_queue (pre ++ t :: rest) = consume_queue (pre ++ [t]).
Proof.
  intros Hpre Ht. induction Hpre as [|m pre Hm _ IH].
  - destruct t; [discriminate|reflexivity|reflexivity].
  - destruct m as [data fmt| |]; try discriminate. simpl. rewrite IH. reflexivity.
Qed.

Lemma consume_ends_done (pre : list qmsg) (t : qmsg) :
  Forall (fun m => is_terminal m = false) pre -> is_terminal t = true ->
  exists out, consume_queue (pre ++ [t]) = (out ++ [sse_done], true).
Proof.
  intros Hpre Ht. induction Hpre as [|m pre Hm _ IH].
  - destruct t; [discriminate| |]; simpl; eexists; [by instantiate (1 := [])|].
    by instantiate (1 := [_]).
  - destruct m as [data fmt| |]; try discriminate. simpl.
    destruct (format_chunk_for_sse data fmt) as [[formatted|]|e].
    + destruct IH as [out ->]. exists (formatted :: out). reflexivity.
    + exact IH.
    + exists [sse_data (error_event (exn_text e))]. reflexivity.
Qed.

Lemma consume_ends_error (pre : list qmsg) (m : pystr) (f : pystr) :
  Forall (fun x => is_terminal x = false) pre ->
  exists out m', consume_queue (pre ++ [QError m f]) =
                 (out ++ [sse_data (error_event m'); sse_done], true).
Proof.
  induction 1 as [|x pre Hx _ IH].
  - exists [], m. reflexivity.
  - destruct x as [data fmt| |]; try discriminate. simpl.
    destruct (format_chunk_for_sse data fmt) as [[formatted|]|e].
    + destruct IH as (out & m' & ->). exists (formatted :: out), m'. reflexivity.
    + exact IH.
    + exists [], (exn_text e). reflexivity.
Qed.

Lemma filter_terminal_count (pre : list qmsg) (t : qmsg) :
  Forall (fun m => is_terminal m = false) pre -> is_terminal t = true ->
  length (List.filter is_terminal (pre ++ [t])) = 1%nat.
Proof.
  intros Hpre Ht. induction Hpre as [|m pre Hm _ IH]; simpl.
  - by rewrite Ht.
  - by rewrite Hm.
Qed.

(** Claim C3: the worker puts exactly one terminal message ([done] or
    [error]) on the queue, as its last message; the consumer forwards
    nothing of what would follow it; and the text sent to the client always
    ends with the line [data: [DONE]], after a normal end as after an error. *)
Theorem stream_single_terminal (cache : format_cache) (ep : pystr) (messages : json)
    (up : upstream) :
  let w := consume_sync_generator cache ep messages up in
  length (List.filter is_terminal (w_queue w)) = 1%nat /\
  (exists pre t, w_queue w = pre ++ [t] /\ is_terminal t = true) /\
  (forall rest, consume_queue (w_queue w ++ rest) = consume_queue (w_queue w)) /\
  exists out, (predict_stream cache messages ep up).1 =
              (out ++ [u "data: [DONE]" ++ [10; 10]], true).
Proof.
  cbv zeta. unfold predict_stream. cbn [fst].
  destruct (worker_queue_shape cache ep messages up) as (pre & t & Hq & Ht & Hpre).
  rewrite Hq. split; [by apply filter_terminal_count|].
  split; [by exists pre, t|]. split.
  - intros rest. rewrite <- app_assoc. cbn [app]. by apply consume_ignores_after.
  - by apply consume_ends_done.
Qed.

(** ** The format resolver *)

Lemma worker_at_most_two_requests (cache : format_cache) (ep : pystr) (messages : json)
    (up : upstream) :
  (length (w_requests (consume_sync_generator cache ep messages up)) <= 2)%nat.
Proof.
  unfold consume_sync_generator, stream_with_format.
  destruct (cached_truthy (cache !! ep)).
  - destruct (att_error _); cbn; lia.
  - destruct (att_error (up (build_agent_inputs messages))) as [e|]; cbn [w_requests].
    + destruct (needs_chat_format e); [destruct (att_error _)|]; cbn; lia.
    + cbn; lia.
Qed.

(** Claim C2: no request ever makes more than two upstream attempts; on an
    endpoint with no cached format the agent payload is tried first; its
    success caches ["agent"]; its failure with a format-mismatch text leads
    to exactly one retry with [{"messages": messages, "stream": true}], and
    ["chat_completion"] is cached exactly when that retry succeeds. *)
Theorem first_call_probe (cache : format_cache) (ep : pystr) (messages : json)
    (up : upstream) :
  let w := consume_sync_generator cache ep messages up in
  let agent := JDict [(u "input", messages);
                      (u "databricks_options", JDict [(u "return_trace", JBool true)])] in
  let chat := JDict [(u "messages", messages); (u "stream", JBool true)] in
  (length (w_requests w) <= 2)%nat /\
  (cache !! ep = None ->
   head (w_requests w) = Some agent /\
   (att_error (up agent) = None ->
    w_requests w = [agent] /\ w_cache w = <[ep := fmt_agent]> cache) /\
   (forall e, att_error (up agent) = Some e -> needs_chat_format e = true ->
    w_requests w = [agent; chat] /\
    (w_cache w !! ep = Some fmt_chat_completion <-> att_error (up chat) = None) /\
    (att_error (up chat) = None -> w_cache w = <[ep := fmt_chat_completion]> cache) /\
    (forall e2, att_error (up chat) = Some e2 -> w_cache w = cache))).
Proof.
  cbv zeta. split; [apply worker_at_most_two_requests|].
  intros Hnone. unfold consume_sync_generator, stream_with_format.
  rewrite Hnone. cbn [cached_truthy]. fold (build_agent_inputs messages).
  fold (build_chat_completion_inputs messages).
  destruct (att_error (up (build_agent_inputs messages))) as [ea|] eqn:Ea;
    [destruct (needs_chat_format ea) eqn:Hn;
     [destruct (att_error (up (build_chat_completion_inputs messages))) as [ec|] eqn:Ec|]|];
    cbn [w_requests w_cache head].
  - split; [reflexivity|]. split; [discriminate|].
    intros e He Hn'. split; [reflexivity|].
    split; [rewrite Hnone; split; discriminate|].
    split; [discriminate|reflexivity].
  - split; [reflexivity|]. split; [discriminate|].
    intros e He Hn'. split; [reflexivity|].
    split; [rewrite lookup_insert_eq; tauto|].
    split; [reflexivity|discriminate].
  - split; [reflexivity|]. split; [discriminate|].
    intros e He Hn'. injection He as <-. congruence.
  - split; [reflexivity|]. split; [done|]. discriminate.
Qed.

(** Claim C6: on an endpoint with no cached format, when the agent attempt
    fails with a text that is not a format mismatch, or the chat-completion
    retry fails, the worker ends the stream with an error message, the
    client receives an error event before the final [data: [DONE]], and the
    cache is left as it was: the endpoint stays unprobed. *)
Theorem failed_probe_not_cached (cache : format_cache) (ep : pystr) (messages : json)
    (up : upstream) (e : pystr) :
  cache !! ep = None ->
  att_error (up (build_agent_inputs messages)) = Some e ->
  (needs_chat_format e = false \/
   exists e2, att_error (up (build_chat_completion_inputs messages)) = Some e2) ->
  let w := consume_sync_generator cache ep messages up in
  w_cache w = cache /\ w_cache w !! ep = None /\
  (exists pre m f, w_queue w = pre ++ [QError m f]) /\
  exists out m', (predict_stream cache messages ep up).1 =
                 (out ++ [sse_data (error_event m'); sse_done], true).
Proof.
  intros Hnone Ha Hfail. cbv zeta. unfold predict_stream. cbn [fst].
  unfold consume_sync_generator, stream_with_format.
  rewrite Hnone. cbn [cached_truthy]. rewrite Ha.
  destruct Hfail as [Hn | (e2 & Hc)].
  - rewrite Hn. cbn [w_cache w_queue].
    split; [reflexivity|]. split; [exact Hnone|]. split; [eauto|].
    apply consume_ends_error, chunks_nonterminal.
  - destruct (needs_chat_format e).
    + rewrite Hc. cbn [w_cache w_queue].
      split; [reflexivity|]. split; [exact Hnone|].
      split; [exists (map (fun c => QChunk c fmt_agent) (att_chunks (up (build_agent_inputs messages)))
                      ++ map (fun c => QChunk c fmt_chat_completion)
                           (att_chunks (up (build_chat_completion_inputs messages)))), e2, fmt_chat_completion;
              by rewrite app_assoc|].
      rewrite app_assoc. apply consume_ends_error. auto with bridge.
    + cbn [w_cache w_queue].
      split; [reflexivity|]. split; [exact Hnone|]. split; [eauto|].
      apply consume_ends_error, chunks_nonterminal.
Qed.

(** ** The format cache over successive calls *)

Lemma worker_cache_shape (cache : format_cache) (ep : pystr) (messages : json) (up : upstream) :
  w_cache (consume_sync_generator cache ep messages up) = cache \/
  exists v, w_cache (consume_sync_generator cache ep messages up) = <[ep := v]> cache.
Proof.
  unfold consume_sync_generator, stream_with_format.
  destruct (cached_truthy (cache !! ep)).
  - destruct (att_error _); cbn; auto.
  - destruct (att_error (up (build_agent_inputs messages))) as [e|]; cbn [w_cache].
    + destruct (needs_chat_format e); [destruct (att_error _)|]; cbn; eauto.
    + eauto.
Qed.

Lemma worker_cached (cache : format_cache) (ep : pystr) (messages : json) (up : upstream)
    (f : pystr) :
  cache !! ep = Some f -> f <> [] ->
  w_cache (consume_sync_generator cache ep messages up) = cache /\
  w_requests (consume_sync_generator cache ep messages up) = [get_inputs cache messages ep].
Proof.
  intros Hf Hne. unfold consume_sync_generator, stream_with_format. rewrite Hf.
  destruct f as [|c f']; [congruence|]. cbn [cached_truthy].
  destruct (att_error _); cbn; auto.
Qed.

Lemma run_calls_cons (cache : format_cache) (c : call) (cs : list call) :
  run_calls cache (c :: cs) =
  let w := consume_sync_generator cache (call_endpoint c) (call_messages c) (call_upstream c) in
  ((run_calls (w_cache w) cs).1,
   {| log_endpoint := call_endpoint c; log_messages := call_messages c;
      log_requests := w_requests w; log_cache := w_cache w |} :: (run_calls (w_cache w) cs).2).
Proof. simpl. by destruct (run_calls _ cs). Qed.

Lemma get_inputs_cached (cache : format_cache) (ep f : pystr) (messages : json) :
  cache !! ep = Some f -> f = fmt_agent \/ f = fmt_chat_completion ->
  get_inputs cache messages ep =
  if bool_decide (f = fmt_chat_completion) then build_chat_completion_inputs messages
  else build_agent_inputs messages.
Proof.
  intros Hf Hfmt. unfold get_inputs. rewrite Hf.
  destruct Hfmt as [-> | ->]; vm_compute; reflexivity.
Qed.

(** Claim C1: once the cache holds ["agent"] or ["chat_completion"] for an
    endpoint, any sequence of later calls (to that endpoint or to others)
    keeps that entry after every call, and every later call to the endpoint
    makes a single upstream request, whose payload is built from the cached
    format: no probe and no retry. *)
Theorem cached_format_sticky (cache : format_cache) (ep f : pystr) (calls : list call) :
  cache !! ep = Some f -> f = fmt_agent \/ f = fmt_chat_completion ->
  (run_calls cache calls).1 !! ep = Some f /\
  Forall (fun l =>
            log_cache l !! ep = Some f /\
            (log_endpoint l = ep ->
             log_requests l =
               [if bool_decide (f = fmt_chat_completion)
                then build_chat_completion_inputs (log_messages l)
                else build_agent_inputs (log_messages l)]))
         (run_calls cache calls).2.
Proof.
  intros Hf Hfmt.
  assert (Hne : f <> []) by (destruct Hfmt as [-> | ->]; vm_compute; discriminate).
  revert cache Hf. induction calls as [|c cs IH]; intros cache Hf.
  - split; [exact Hf | constructor].
  - rewrite run_calls_cons. cbv zeta. cbn [fst snd].
    set (w := consume_sync_generator cache (call_endpoint c) (call_messages c) (call_upstream c)).
    assert (Hw : w_cache w !! ep = Some f).
    { destruct (decide (call_endpoint c = ep)) as [Heq | Hneq].
      - subst w. rewrite Heq. by rewrite (proj1 (worker_cached _ _ _ _ f Hf Hne)).
      - destruct (worker_cache_shape cache (call_endpoint c) (call_messages c) (call_upstream c))
          as [H | [v H]]; subst w; rewrite H; [exact Hf|].
        by rewrite lookup_insert_ne. }
    destruct (IH (w_cache w) Hw) as [Hfinal Hlogs].
    split; [exact Hfinal|]. constructor; [|exact Hlogs].
    cbn [log_cache log_endpoint log_requests log_messages]. split; [exact Hw|].
    intros Heq. subst w. rewrite Heq.
    rewrite (proj2 (worker_cached _ _ _ _ f Hf Hne)).
    by rewrite (get_inputs_cached cache ep f (call_messages c) Hf Hfmt).
Qed.

Lemma cached_format_sticky_witness :
  (<[u "ep" := fmt_agent]> ∅ : format_cache) !! u "ep" = Some fmt_agent /\
  (run_calls (<[u "ep" := fmt_agent]> ∅)
     [{| call_endpoint := u "ep"; call_messages := scenario_messages;
         call_upstream := chat_only_upstream |}]).1 !! u "ep" = Some fmt_agent.
Proof.
  assert (H0 : (<[u "ep" := fmt_agent]> ∅ : format_cache) !! u "ep" = Some fmt_agent)
    by apply lookup_insert_eq.
  split; [exact H0|].
  apply (cached_format_sticky (<[u "ep" := fmt_agent]> ∅) (u "ep") fmt_agent); [exact H0|].
  left. reflexivity.
Defined.

(** Scenario B: the agent payload is refused with
    ["Missing required Chat parameter: 'messages'"], the chat-completion
    retry succeeds, and the cache then holds ["chat_completion"]. *)
Lemma first_call_probe_witness :
  (∅ : format_cache) !! u "ep" = None /\
  w_cache (consume_sync_generator ∅ (u "ep") scenario_messages chat_only_upstream) !! u "ep"
  = Some fmt_chat_completion.
Proof.
  split; [reflexivity|].
  destruct (first_call_probe ∅ (u "ep") scenario_messages chat_only_upstream) as [_ H].
  destruct (H eq_refl) as (_ & _ & H3).
  destruct (H3 lit_missing_chat_messages) as (_ & Hiff & _);
    [vm_compute; reflexivity | vm_compute; reflexivity |].
  apply Hiff. vm_compute. reflexivity.
Defined.

Lemma failed_probe_not_cached_witness :
  (∅ : format_cache) !! u "ep" = None /\
  w_cache (consume_sync_generator ∅ (u "ep") scenario_messages failing_upstream) !! u "ep"
  = None.
Proof.
  split; [reflexivity|].
  destruct (failed_probe_not_cached ∅ (u "ep") scenario_messages failing_upstream
              (u "503 Service Unavailable")) as (_ & H & _).
  - reflexivity.
  - reflexivity.
  - left. vm_compute. reflexivity.
  - exact H.
Defined.

(** ** The dispatcher *)

(** Claim C8 (evaluated at the failing input): for an agent whose
    [endpoint_name] is null, the router constructs the handler, whose
    constructor raises [ValueError] before any request; the router re-raises
    it instead of returning a structured error, while the route of
    server/app.py returns one for the same configuration. *)
Theorem router_missing_endpoint_raises :
  router_invoke_endpoint agents_missing_endpoint (u "a1") scenario_messages true =
    (DRaised (ValueError (u "Agent a1 has no endpoint_name configured")), [EConstructHandler]) /\
  app_invoke_endpoint agents_missing_endpoint (u "a1") scenario_messages =
    (DStructuredError (error_body (u "Invalid agent configuration")
                                  (u "Agent a1 has no endpoint_name configured")), []).
Proof. split; vm_compute; reflexivity. Qed.

Lemma lookup_handler_unregistered (s : pystr) :
  ~ In s (map fst DEPLOYMENT_HANDLERS) -> lookup_handler (JStr s) = Ok None.
Proof.
  intros Hs. cbn. case_bool_decide as E; [|reflexivity].
  subst s. exfalso. apply Hs. left. reflexivity.
Qed.

(** Claim C9: when the agent names as its deployment type a string that
    is not a key of [DEPLOYMENT_HANDLERS], the router returns a structured
    error result with no side effect: no handler is constructed and no
    request is made. (A list or dict given as the deployment type is not a
    type name: [DEPLOYMENT_HANDLERS.get] raises [TypeError] on it.) *)
Theorem unknown_deployment_type_structured_error (agents : list json) (agent_id : pystr)
    (messages : json) (stream : bool) (agent : json) (deployment_type : pystr) :
  get_agent_by_id agents agent_id = Ok (Some agent) ->
  py_get agent (u "deployment_type") (JStr (u "databricks-endpoint")) = Ok (JStr deployment_type) ->
  ~ In deployment_type (map fst DEPLOYMENT_HANDLERS) ->
  exists body, router_invoke_endpoint agents agent_id messages stream = (DStructuredError body, []).
Proof.
  intros Hget Hdt Hnot. unfold router_invoke_endpoint. rewrite Hget. cbn [agent_found].
  destruct (truthy agent); [rewrite Hdt, (lookup_handler_unregistered _ Hnot)|];
    eexists; reflexivity.
Qed.

(** Scenario E: deployment type ["foo"]. *)
Lemma unknown_deployment_type_structured_error_witness :
  ~ In (u "foo") (map fst DEPLOYMENT_HANDLERS) /\
  exists body, router_invoke_endpoint agents_foo (u "a2") scenario_messages true =
               (DStructuredError body, []).
Proof.
  assert (Hnot : ~ In (u "foo") (map fst DEPLOYMENT_HANDLERS)).
  { cbn. intros [H|[]]. vm_compute in H. discriminate H. }
  split; [exact Hnot|].
  apply (unknown_deployment_type_structured_error agents_foo (u "a2") scenario_messages true
           agent_foo (u "foo")); [vm_compute; reflexivity | vm_compute; reflexivity | exact Hnot].
Defined.

(** ** UTF-8 round trip *)

Lemma in_range_true (lo hi b : Z) : lo <= b <= hi -> in_range lo hi b = true.
Proof. intros [H1 H2]. unfold in_range. apply andb_true_intro; split; apply Z.leb_le; lia. Qed.

Lemma in_range_false (lo hi b : Z) : ~ (lo <= b <= hi) -> in_range lo hi b = false.
Proof.
  intros H. unfold in_range.
  destruct (lo <=? b) eqn:E1; destruct (b <=? hi) eqn:E2; try reflexivity.
  apply Z.leb_le in E1; apply Z.leb_le in E2. lia.
Qed.

Ltac range_true := rewrite in_range_true by lia.
Ltac range_false := rewrite in_range_false by lia.
Ltac fin_dec := match goal with
  | |- context [utf8_decode ?r] =>
      destruct (utf8_decode r); cbn; [do 2 f_equal; lia | reflexivity]
  end.

Lemma utf8_decode_char (c : Z) (rest : list Z) :
  scalar_value c ->
  utf8_decode (utf8_encode_char c ++ rest) =
  (r ← utf8_decode rest; Some (c :: r)).
Proof.
  intros [Hc Hs]. unfold utf8_encode_char.
  pose proof (Z.div_mod c 64 ltac:(lia)) as D1.
  pose proof (Z.mod_pos_bound c 64 ltac:(lia)) as M1.
  pose proof (Z.div_mod (c / 64) 64 ltac:(lia)) as D2.
  pose proof (Z.mod_pos_bound (c / 64) 64 ltac:(lia)) as M2.
  pose proof (Z.div_mod (c / 4096) 64 ltac:(lia)) as D3.
  pose proof (Z.mod_pos_bound (c / 4096) 64 ltac:(lia)) as M3.
  assert (E2 : c / 64 / 64 = c / 4096) by (rewrite Z.div_div by lia; reflexivity).
  assert (E3 : c / 4096 / 64 = c / 262144) by (rewrite Z.div_div by lia; reflexivity).
  rewrite E2 in D2. rewrite E3 in D3.
  destruct (c <? 128) eqn:L1; [apply Z.ltb_lt in L1 | apply Z.ltb_ge in L1].
  { cbn [app utf8_decode]. range_true. reflexivity. }
  destruct (c <? 2048) eqn:L2; [apply Z.ltb_lt in L2 | apply Z.ltb_ge in L2].
  { cbn [app utf8_decode]. range_false. range_true.
    unfold cont_byte. range_true.
    fin_dec. }
  destruct (c <? 65536) eqn:L3; [apply Z.ltb_lt in L3 | apply Z.ltb_ge in L3].
  { cbn [app utf8_decode]. range_false. range_false. range_true.
    unfold cont_byte. rewrite (in_range_true 128 191 (128 + c mod 64)) by lia.
    destruct (Z.eqb_spec (224 + c / 4096) 224) as [A|A].
    - range_true. cbn [andb]. fin_dec.
    - destruct (Z.eqb_spec (224 + c / 4096) 237) as [B|B].
      + range_true. cbn [andb]. fin_dec.
      + range_true. cbn [andb]. fin_dec. }
  cbn [app utf8_decode]. range_false. range_false. range_false. range_true.
  unfold cont_byte.
  rewrite (in_range_true 128 191 (128 + c mod 64)) by lia.
  rewrite (in_range_true 128 191 (128 + (c / 64) mod 64)) by lia.
  destruct (Z.eqb_spec (240 + c / 262144) 240) as [A|A].
  - range_true. cbn [andb]. fin_dec.
  - destruct (Z.eqb_spec (240 + c / 262144) 244) as [B|B].
    + range_true. cbn [andb]. fin_dec.
    + range_true. cbn [andb]. fin_dec.
Qed.

Lemma utf8_decode_encode (s : pystr) :
  Forall scalar_value s -> utf8_decode (utf8_encode s) = Some s.
Proof.
  induction 1 as [|c s Hc _ IH]; [reflexivity|].
  unfold utf8_encode. cbn [flat_map]. fold (utf8_encode s).
  rewrite utf8_decode_char by exact Hc. rewrite IH. reflexivity.
Qed.

Lemma utf8_encode_char_bytes (c : Z) :
  scalar_value c -> Forall (fun b => 0 <= b <= 255) (utf8_encode_char c).
Proof.
  intros [Hc Hs]. unfold utf8_encode_char.
  pose proof (Z.mod_pos_bound c 64 ltac:(lia)).
  pose proof (Z.mod_pos_bound (c / 64) 64 ltac:(lia)).
  pose proof (Z.mod_pos_bound (c / 4096) 64 ltac:(lia)).
  destruct (c <? 128) eqn:L1; [apply Z.ltb_lt in L1 | apply Z.ltb_ge in L1].
  { repeat constructor; lia. }
  destruct (c <? 2048) eqn:L2; [apply Z.ltb_lt in L2 | apply Z.ltb_ge in L2].
  { assert (0 <= c / 64 < 32) by (split; [apply Z.div_pos | apply Z.div_lt_upper_bound]; lia).
    repeat constructor; lia. }
  destruct (c <? 65536) eqn:L3; [apply Z.ltb_lt in L3 | apply Z.ltb_ge in L3].
  { assert (0 <= c / 4096 < 16) by (split; [apply Z.div_pos | apply Z.div_lt_upper_bound]; lia).
    repeat constructor; lia. }
  assert (0 <= c / 262144 < 5) by (split; [apply Z.div_pos | apply Z.div_lt_upper_bound]; lia).
  repeat constructor; lia.
Qed.

Lemma latin1_encode_bytes (s : list Z) :
  Forall (fun b => 0 <= b <= 255) s -> latin1_encode s = Some s.
Proof.
  intros H. unfold latin1_encode.
  replace (forallb _ s) with true; [reflexivity|].
  symmetry. apply forallb_forall. intros x Hx.
  apply list_elem_of_In in Hx. rewrite Forall_forall in H. specialize (H x Hx).
  apply andb_true_intro; split; apply Z.leb_le; lia.
Qed.

Lemma latin1_encode_some (s b : list Z) :
  latin1_encode s = Some b -> b = s /\ Forall (fun c => 0 <= c <= 255) s.
Proof.
  unfold latin1_encode. destruct (forallb _ s) eqn:F; [|discriminate].
  intros [= <-]. split; [reflexivity|]. apply Forall_forall. intros x Hx.
  apply list_elem_of_In in Hx. eapply forallb_forall in F; [|exact Hx].
  apply andb_prop in F as [F1 F2]. apply Z.leb_le in F1. apply Z.leb_le in F2. lia.
Qed.

(** The decoder splits at an ASCII byte that follows non-ASCII bytes. *)
Lemma utf8_decode_split_ascii (n : nat) :
  forall run c s r, (length run <= n)%nat -> Forall (fun b => 128 <= b) run ->
  0 <= c <= 127 -> utf8_decode (run ++ c :: s) = Some r ->
  exists r1 r2, utf8_decode run = Some r1 /\ utf8_decode s = Some r2 /\ r = r1 ++ c :: r2.
Proof.
  induction n as [|n IH]; intros run c s r Hn Hrun Hc H.
  all: destruct run as [|b1 run'].
  2: simpl in Hn; lia.
  1,2: cbn [app utf8_decode] in H; rewrite in_range_true in H by lia;
       destruct (utf8_decode s) as [x|] eqn:E; cbn in H; [|discriminate];
       injection H as <-; exists [], x; auto.
  inversion Hrun as [|? ? Hb1 Hrun']; subst. simpl in Hn.
  assert (A0 : in_range 0 127 b1 = false) by (apply in_range_false; lia).
  assert (Cc : cont_byte c = false) by (apply in_range_false; lia).
  assert (C1 : in_range 160 191 c = false) by (apply in_range_false; lia).
  assert (C2 : in_range 128 159 c = false) by (apply in_range_false; lia).
  assert (C3 : in_range 144 191 c = false) by (apply in_range_false; lia).
  assert (C4 : in_range 128 143 c = false) by (apply in_range_false; lia).
  destruct (in_range 194 223 b1) eqn:R2.
  { destruct run' as [|b2 run2].
    - cbn [app utf8_decode] in H. rewrite A0, R2, Cc in H. discriminate.
    - cbn [app utf8_decode] in H. rewrite A0, R2 in H.
      destruct (cont_byte b2) eqn:K2; [|discriminate].
      destruct (utf8_decode (run2 ++ c :: s)) as [x|] eqn:E; cbn in H; [|discriminate].
      injection H as <-. inversion Hrun' as [|? ? ? Hrun2]; subst.
      destruct (IH run2 c s x ltac:(simpl in Hn; lia) Hrun2 Hc E) as (r1 & r2 & E1 & E2 & ->).
      exists (((b1 - 192) * 64 + (b2 - 128)) :: r1), r2.
      cbn [utf8_decode]. rewrite A0, R2, K2, E1. auto. }
  destruct (in_range 224 239 b1) eqn:R3.
  { destruct run' as [|b2 [|b3 run3]].
    - cbn [app utf8_decode] in H. rewrite A0, R2, R3 in H.
      destruct s as [|b3 r3]; [discriminate|].
      rewrite C1, C2, Cc in H. destruct (b1 =? 224), (b1 =? 237); discriminate.
    - cbn [app utf8_decode] in H. rewrite A0, R2, R3, Cc, andb_false_r in H. discriminate.
    - cbn [app utf8_decode] in H. rewrite A0, R2, R3 in H.
      destruct ((if b1 =? 224 then in_range 160 191 b2
                 else if b1 =? 237 then in_range 128 159 b2 else cont_byte b2)
                && cont_byte b3) eqn:K; [|discriminate].
      destruct (utf8_decode (run3 ++ c :: s)) as [x|] eqn:E; cbn in H; [|discriminate].
      injection H as <-. inversion Hrun' as [|? ? ? Hrun2]; subst.
      inversion Hrun2 as [|? ? ? Hrun3]; subst.
      destruct (IH run3 c s x ltac:(simpl in Hn; lia) Hrun3 Hc E) as (r1 & r2 & E1 & E2 & ->).
      eexists _, r2. cbn [utf8_decode]. rewrite A0, R2, R3, K, E1. auto. }
  destruct (in_range 240 244 b1) eqn:R4.
  { destruct run' as [|b2 [|b3 [|b4 run4]]].
    - cbn [app utf8_decode] in H. rewrite A0, R2, R3, R4 in H.
      destruct s as [|b3 [|b4 r4]]; try discriminate.
      rewrite C3, C4, Cc in H. destruct (b1 =? 240), (b1 =? 244); discriminate.
    - cbn [app utf8_decode] in H. rewrite A0, R2, R3, R4 in H.
      destruct s as [|b4 r4]; [discriminate|].
      rewrite Cc, andb_false_r, andb_false_l in H. discriminate.
    - cbn [app utf8_decode] in H. rewrite A0, R2, R3, R4, Cc, andb_false_r in H.
      discriminate.
    - cbn [app utf8_decode] in H. rewrite A0, R2, R3, R4 in H.
      destruct ((if b1 =? 240 then in_range 144 191 b2
                 else if b1 =? 244 then in_range 128 143 b2 else cont_byte b2)
                && cont_byte b3 && cont_byte b4) eqn:K; [|discriminate].
      destruct (utf8_decode (run4 ++ c :: s)) as [x|] eqn:E; cbn in H; [|discriminate].
      injection H as <-. inversion Hrun' as [|? ? ? Hrun2]; subst.
      inversion Hrun2 as [|? ? ? Hrun3]; subst.
      inversion Hrun3 as [|? ? ? Hrun4]; subst.
      destruct (IH run4 c s x ltac:(simpl in Hn; lia) Hrun4 Hc E) as (r1 & r2 & E1 & E2 & ->).
      eexists _, r2. cbn [utf8_decode]. rewrite A0, R2, R3, R4, K, E1. auto. }
  cbn [app utf8_decode] in H. rewrite A0, R2, R3, R4 in H. discriminate.
Qed.

Lemma flush_run_decode (run r : list Z) :
  Forall (fun b => 128 <= b <= 255) run -> utf8_decode run = Some r -> flush_run run = r.
Proof.
  intros Hrun H. destruct run as [|b run']; [cbn in *; congruence|].
  unfold flush_run, fix_segment, latin1_utf8_roundtrip.
  rewrite latin1_encode_bytes by (eapply Forall_impl; [exact Hrun|]; cbv beta; lia).
  unfold mbind, option_bind. rewrite H. reflexivity.
Qed.

Lemma sub_runs_decode (s : list Z) :
  forall run r, Forall (fun b => 128 <= b <= 255) run -> Forall (fun b => 0 <= b <= 255) s ->
  utf8_decode (run ++ s) = Some r -> sub_runs run s = r.
Proof.
  induction s as [|c s IH]; intros run r Hrun Hs H.
  - rewrite app_nil_r in H. cbn. apply flush_run_decode; assumption.
  - inversion Hs as [|? ? Hc Hs']; subst. cbn [sub_runs].
    destruct (is_latin1_ext c) eqn:X.
    + unfold is_latin1_ext, in_range in X. apply andb_prop in X as [X1 X2].
      apply Z.leb_le in X1. apply Z.leb_le in X2.
      apply IH; [apply Forall_app; split; [exact Hrun | repeat constructor; lia] | exact Hs' |].
      rewrite <- app_assoc. exact H.
    + assert (Hc' : 0 <= c <= 127).
      { unfold is_latin1_ext in X. destruct (Z_le_gt_dec 128 c); [|lia].
        rewrite in_range_true in X by lia. discriminate. }
      destruct (utf8_decode_split_ascii (length run) run c s r (le_n _)
                  ltac:(eapply Forall_impl; [exact Hrun|]; cbv beta; lia) Hc' H)
        as (r1 & r2 & E1 & E2 & ->).
      rewrite (flush_run_decode run r1 Hrun E1). f_equal. f_equal.
      apply IH; [constructor | exact Hs' | exact E2].
Qed.

Lemma fix_mojibake_sub_runs (s : pystr) : fix_mojibake s = sub_runs [] s.
Proof.
  destruct s as [|c s']; [reflexivity|].
  unfold fix_mojibake.
  destruct (latin1_utf8_roundtrip (c :: s')) as [r|] eqn:E; [|reflexivity].
  unfold latin1_utf8_roundtrip in E.
  destruct (latin1_encode (c :: s')) as [b|] eqn:L; cbn in E; [|discriminate].
  apply latin1_encode_some in L as [-> HB].
  symmetry. apply sub_runs_decode; [constructor | exact HB | exact E].
Qed.

Lemma sub_runs_split (a : pystr) :
  forall run c b, is_latin1_ext c = false ->
  sub_runs run (a ++ c :: b) = sub_runs run a ++ c :: sub_runs [] b.
Proof.
  induction a as [|x a IH]; intros run c b Hc.
  - cbn. rewrite Hc. reflexivity.
  - cbn [app sub_runs]. destruct (is_latin1_ext x).
    + apply IH; exact Hc.
    + rewrite IH by exact Hc. rewrite <- app_assoc. reflexivity.
Qed.

Lemma utf8_decode_length (n : nat) :
  forall bs r, (length bs <= n)%nat -> utf8_decode bs = Some r -> (length r <= length bs)%nat.
Proof.
  induction n as [|n IH]; intros bs r Hn H.
  - destruct bs; [cbn in H; injection H as <-; cbn; lia | cbn in Hn; lia].
  - destruct bs as [|b1 r1]; [cbn in H; injection H as <-; cbn; lia|].
    cbn [utf8_decode] in H. unfold mbind, option_bind in H.
    repeat case_match; simplify_eq; cbn [length] in *;
      match goal with
      | E : utf8_decode ?x = Some ?l |- _ => apply IH in E; cbn [length] in *; lia
      end.
Qed.

Lemma flush_run_length (run : pystr) : (length (flush_run run) <= length run)%nat.
Proof.
  destruct run as [|b run']; [cbn; lia|].
  unfold flush_run, fix_segment.
  destruct (latin1_utf8_roundtrip (b :: run')) as [r|] eqn:E; [|lia].
  unfold latin1_utf8_roundtrip in E.
  destruct (latin1_encode (b :: run')) as [bs|] eqn:L; cbn in E; [|discriminate].
  apply latin1_encode_some in L as [-> _].
  exact (utf8_decode_length _ _ _ (le_n _) E).
Qed.

Lemma sub_runs_length (s : pystr) :
  forall run, (length (sub_runs run s) <= length run + length s)%nat.
Proof.
  induction s as [|c s IH]; intros run; cbn [sub_runs].
  - pose proof (flush_run_length run). cbn. lia.
  - destruct (is_latin1_ext c).
    + specialize (IH (run ++ [c])). rewrite length_app in IH. cbn in *. lia.
    + rewrite length_app. pose proof (flush_run_length run). specialize (IH []).
      cbn in *. lia.
Qed.

(** ** The streaming paths *)

Lemma fmt_agent_not_chat : bool_decide (fmt_agent = fmt_chat_completion) = false.
Proof.
  apply bool_decide_eq_false_2. unfold fmt_agent, fmt_chat_completion.
  intros H. vm_compute in H. congruence.
Qed.

Lemma cached_truthy_agent : cached_truthy (Some fmt_agent) = Some fmt_agent.
Proof. reflexivity. Qed.

Lemma cached_truthy_chat : cached_truthy (Some fmt_chat_completion) = Some fmt_chat_completion.
Proof. reflexivity. Qed.


Lemma consume_agent_chunks (chunks : list json) (rest : list qmsg) :
  consume_queue (map (fun c => QChunk c fmt_agent) chunks ++ rest) =
  (map sse_data chunks ++ (consume_queue rest).1, (consume_queue rest).2).
Proof.
  induction chunks as [|c chunks IH]; cbn [map app].
  - by destruct (consume_queue rest).
  - cbn [consume_queue]. unfold format_chunk_for_sse. rewrite fmt_agent_not_chat.
    rewrite IH. reflexivity.
Qed.

Lemma consume_chat_chunks (chunks : list json) (rest : list qmsg) :
  Forall (fun c => exists o, convert_chat_completion_chunk c = Ok o) chunks ->
  consume_queue (map (fun c => QChunk c fmt_chat_completion) chunks ++ rest) =
  (flat_map chat_events chunks ++ (consume_queue rest).1, (consume_queue rest).2).
Proof.
  induction 1 as [|c chunks [o Ho] _ IH]; cbn [map app flat_map].
  - by destruct (consume_queue rest).
  - cbn [consume_queue]. unfold format_chunk_for_sse, chat_events.
    rewrite bool_decide_eq_true_2 by reflexivity. rewrite Ho. cbn [rbind].
    destruct o as [ev|]; rewrite IH; reflexivity.
Qed.

Lemma consume_chat_raise (pre : list json) (c : json) (ex : pyexn) (rest : list qmsg) :
  Forall (fun c => exists o, convert_chat_completion_chunk c = Ok o) pre ->
  convert_chat_completion_chunk c = Raise ex ->
  consume_queue (map (fun c => QChunk c fmt_chat_completion) pre ++
                 QChunk c fmt_chat_completion :: rest) =
  (flat_map chat_events pre ++ [sse_data (error_event (exn_text ex)); sse_done], true).
Proof.
  intros Hpre Hc. rewrite consume_chat_chunks by exact Hpre.
  cbn [consume_queue]. unfold format_chunk_for_sse.
  rewrite bool_decide_eq_true_2 by reflexivity. rewrite Hc. reflexivity.
Qed.

Lemma worker_agent_path (cache : format_cache) (ep : pystr) (messages : json)
    (up : upstream) (a : attempt) :
  (cache !! ep = Some fmt_agent \/
   (cache !! ep = None /\ forall e, att_error a = Some e -> needs_chat_format e = false)) ->
  up (build_agent_inputs messages) = a ->
  w_queue (consume_sync_generator cache ep messages up) =
  map (fun c => QChunk c fmt_agent) (att_chunks a) ++
  [match att_error a with None => QDone fmt_agent | Some e => QError e fmt_agent end].
Proof.
  intros Hc Hup. unfold consume_sync_generator, stream_with_format.
  destruct Hc as [Hc | [Hc Hn]]; rewrite Hc.
  - rewrite cached_truthy_agent. unfold get_inputs. rewrite Hc.
    rewrite bool_decide_eq_false_2 by (intros H; vm_compute in H; congruence).
    rewrite Hup. destruct (att_error a); reflexivity.
  - cbn [cached_truthy]. rewrite Hup.
    destruct (att_error a) as [e|]; [|reflexivity].
    rewrite (Hn e eq_refl). reflexivity.
Qed.

Lemma worker_chat_cached (cache : format_cache) (ep : pystr) (messages : json)
    (up : upstream) :
  cache !! ep = Some fmt_chat_completion ->
  w_queue (consume_sync_generator cache ep messages up) =
  map (fun c => QChunk c fmt_chat_completion)
      (att_chunks (up (build_chat_completion_inputs messages))) ++
  [match att_error (up (build_chat_completion_inputs messages)) with
   | None => QDone fmt_chat_completion
   | Some e => QError e fmt_chat_completion end].
Proof.
  intros Hc. unfold consume_sync_generator, stream_with_format. rewrite Hc.
  rewrite cached_truthy_chat. unfold get_inputs. rewrite Hc.
  rewrite bool_decide_eq_true_2 by reflexivity.
  destruct (att_error _); reflexivity.
Qed.

Lemma worker_fallback_prefix (cache : format_cache) (ep : pystr) (messages : json)
    (up : upstream) (chunks : list json) (e : pystr) :
  cache !! ep = None ->
  up (build_agent_inputs messages) = {| att_chunks := chunks; att_error := Some e |} ->
  needs_chat_format e = true ->
  exists pre t, w_queue (consume_sync_generator cache ep messages up) =
    map (fun c => QChunk c fmt_agent) chunks ++ pre ++ [t] /\
    is_terminal t = true /\ Forall (fun m => is_terminal m = false) pre.
Proof.
  intros Hc Hup Hn. unfold consume_sync_generator, stream_with_format.
  rewrite Hc. cbn [cached_truthy]. rewrite Hup. cbn [att_chunks att_error]. rewrite Hn.
  destruct (att_error (up (build_chat_completion_inputs messages))); cbn [w_queue].
  - eexists _, _. split; [reflexivity|]. split; [reflexivity | apply chunks_nonterminal].
  - eexists _, _. split; [reflexivity|]. split; [reflexivity | apply chunks_nonterminal].
Qed.

(** ** The format cache across calls *)

Lemma worker_cache_values (cache : format_cache) (ep : pystr) (messages : json) (up : upstream) :
  w_cache (consume_sync_generator cache ep messages up) = cache \/
  w_cache (consume_sync_generator cache ep messages up) = <[ep := fmt_agent]> cache \/
  w_cache (consume_sync_generator cache ep messages up) = <[ep := fmt_chat_completion]> cache.
Proof.
  unfold consume_sync_generator, stream_with_format.
  destruct (cached_truthy (cache !! ep)).
  - destruct (att_error _); cbn; auto.
  - destruct (att_error (up (build_agent_inputs messages))) as [e|]; cbn [w_cache].
    + destruct (needs_chat_format e); [destruct (att_error _)|]; cbn; auto.
    + auto.
Qed.

Lemma run_calls_values (calls : list call) :
  forall cache,
  map_Forall (fun _ v => v = fmt_agent \/ v = fmt_chat_completion) cache ->
  map_Forall (fun _ v => v = fmt_agent \/ v = fmt_chat_completion) (run_calls cache calls).1.
Proof.
  induction calls as [|c cs IH]; intros cache H; [exact H|].
  rewrite run_calls_cons. cbv zeta. cbn [fst]. apply IH.
  destruct (worker_cache_values cache (call_endpoint c) (call_messages c) (call_upstream c))
    as [E|[E|E]]; rewrite E; [exact H | |]; apply map_Forall_insert_2; auto.
Qed.

Lemma run_calls_keys (calls : list call) :
  forall cache k, (run_calls cache calls).1 !! k <> None ->
  cache !! k <> None \/ exists c, In c calls /\ call_endpoint c = k.
Proof.
  induction calls as [|c cs IH]; intros cache k H; [left; exact H|].
  rewrite run_calls_cons in H. cbv zeta in H. cbn [fst] in H.
  destruct (IH _ k H) as [H1 | (c' & Hin & Hk)]; [|right; exists c'; split; [right|]; assumption].
  destruct (worker_cache_shape cache (call_endpoint c) (call_messages c) (call_upstream c))
    as [E|[v E]]; rewrite E in H1; [left; exact H1|].
  destruct (decide (call_endpoint c = k)) as [<-|Hne].
  - right. exists c. split; [left|]; reflexivity.
  - left. rewrite lookup_insert_ne in H1 by exact Hne. exact H1.
Qed.

(** ** Configuration lookup *)

Lemma dict_lookup_app_none (kvs : list (pystr * json)) (k : pystr) (v : json) :
  dict_lookup kvs k = None -> dict_lookup (kvs ++ [(k, v)]) k = Some v.
Proof.
  induction kvs as [|[k' v'] kvs IH]; intros H; cbn in *.
  - rewrite bool_decide_eq_true_2 by reflexivity. reflexivity.
  - destruct (bool_decide (k' = k)); [discriminate | exact (IH H)].
Qed.

Lemma json_is_str_true (x : json) (s : pystr) : json_is_str x s = true -> x = JStr s.
Proof.
  destruct x; try discriminate. cbn. intros H. apply bool_decide_eq_true_1 in H. by subst.
Qed.

Lemma get_agent_endpoint (agents : list json) (aid : pystr) (a : json) :
  get_agent_by_id agents aid = Ok (Some a) ->
  exists kvs v, a = JDict kvs /\ dict_lookup kvs (u "endpoint_name") = Some v /\
    (v = JStr aid \/
     exists kvs0, In (JDict kvs0) agents /\ dict_lookup kvs0 (u "endpoint_name") = Some v).
Proof.
  induction agents as [|x agents IH]; intros H; [discriminate|].
  destruct x as [| | | s | l | kvs0]; cbn [get_agent_by_id py_get rbind] in H;
    try discriminate.
  - destruct (bool_decide (s = aid)) eqn:Es.
    + injection H as <-. apply bool_decide_eq_true_1 in Es. subst s.
      eexists _, _. split; [reflexivity|]. split; [|left; reflexivity].
      cbn. rewrite bool_decide_eq_true_2 by reflexivity. reflexivity.
    + destruct (IH H) as (kvs & v & -> & Hv & [Hs | (kvs0 & Hin & Hk)]).
      * eexists _, _. split; [reflexivity|]. split; [exact Hv | left; exact Hs].
      * eexists _, _. split; [reflexivity|]. split; [exact Hv|].
        right. exists kvs0. split; [right; exact Hin | exact Hk].
  - destruct (dict_lookup kvs0 (u "endpoint_name")) as [v0|] eqn:E0; cbn [from_option id] in H.
    + destruct (json_is_str v0 aid); cbn [rbind] in H.
      * injection H as <-. eexists _, _. split; [reflexivity|]. split; [exact E0|].
        right. exists kvs0. split; [left; reflexivity | exact E0].
      * destruct (json_is_str (from_option id JNull (dict_lookup kvs0 (u "id"))) aid);
          cbn [rbind] in H.
        -- injection H as <-. eexists _, _. split; [reflexivity|]. split; [exact E0|].
           right. exists kvs0. split; [left; reflexivity | exact E0].
        -- destruct (IH H) as (kvs & v & -> & Hv & [Hs | (kvs1 & Hin & Hk)]).
           ++ eexists _, _. split; [reflexivity|]. split; [exact Hv | left; exact Hs].
           ++ eexists _, _. split; [reflexivity|]. split; [exact Hv|].
              right. exists kvs1. split; [right; exact Hin | exact Hk].
    + cbn [json_is_str rbind] in H.
      destruct (dict_lookup kvs0 (u "id")) as [idv|] eqn:E1; cbn [from_option id] in H.
      * destruct (json_is_str idv aid) eqn:Ei; cbn [rbind] in H.
        -- injection H as <-. apply json_is_str_true in Ei. subst idv.
           eexists _, _. split; [reflexivity|].
           split; [apply dict_lookup_app_none, E0 | left; reflexivity].
        -- destruct (IH H) as (kvs & v & -> & Hv & [Hs | (kvs1 & Hin & Hk)]).
           ++ eexists _, _. split; [reflexivity|]. split; [exact Hv | left; exact Hs].
           ++ eexists _, _. split; [reflexivity|]. split; [exact Hv|].
              right. exists kvs1. split; [right; exact Hin | exact Hk].
      * cbn [json_is_str rbind] in H.
        destruct (IH H) as (kvs & v & -> & Hv & [Hs | (kvs1 & Hin & Hk)]).
        -- eexists _, _. split; [reflexivity|]. split; [exact Hv | left; exact Hs].
        -- eexists _, _. split; [reflexivity|]. split; [exact Hv|].
           right. exists kvs1. split; [right; exact Hin | exact Hk].
Qed.

Lemma get_agent_app (l1 l2 : list json) (aid : pystr) :
  get_agent_by_id (l1 ++ l2) aid =
  match get_agent_by_id l1 aid with
  | Ok None => get_agent_by_id l2 aid
  | r => r
  end.
Proof.
  induction l1 as [|x l1 IH].
  - cbn [app get_agent_by_id]. by destruct (get_agent_by_id l2 aid) as [[?|]|?].
  - destruct x as [| | | s | l | kvs0]; cbn [app get_agent_by_id py_get rbind]; try reflexivity.
    + destruct (bool_decide (s = aid)); [reflexivity | exact IH].
    + destruct (json_is_str (from_option id JNull (dict_lookup kvs0 (u "endpoint_name"))) aid);
        cbn [rbind].
      * destruct (dict_lookup kvs0 (u "endpoint_name")), (dict_lookup kvs0 (u "id"));
          reflexivity.
      * destruct (json_is_str (from_option id JNull (dict_lookup kvs0 (u "id"))) aid);
          cbn [rbind]; [|exact IH].
        destruct (dict_lookup kvs0 (u "endpoint_name")), (dict_lookup kvs0 (u "id"));
          reflexivity.
Qed.

(** ** The two dispatching routes *)

Lemma lookup_handler_databricks :
  lookup_handler (JStr (u "databricks-endpoint")) = Ok (Some DatabricksEndpointHandler).
Proof. reflexivity. Qed.

(** ** The line parser of the handler the router uses *)


Lemma lstrip_spaces (ws s : pystr) : Forall is_space ws -> lstrip (ws ++ s) = lstrip s.
Proof. induction 1 as [|c ws Hc _ IH]; [reflexivity|]. cbn. rewrite Hc. exact IH. Qed.

Lemma lstrip_app (p q : pystr) :
  lstrip (p ++ q) = match lstrip p with [] => lstrip q | l => l ++ q end.
Proof.
  induction p as [|c p IH]; [reflexivity|]. cbn. destruct (py_isspace c); [exact IH|reflexivity].
Qed.

Lemma lstrip_suffix (s : pystr) : exists pre, s = pre ++ lstrip s.
Proof.
  induction s as [|c s [pre IH]]; [exists []; reflexivity|]. cbn.
  destruct (py_isspace c); [exists (c :: pre); cbn; rewrite <- IH; reflexivity|].
  exists []. reflexivity.
Qed.

Lemma lstrip_length (s : pystr) : (length (lstrip s) <= length s)%nat.
Proof.
  destruct (lstrip_suffix s) as [pre Hs]. rewrite Hs at 2. rewrite length_app. lia.
Qed.

Lemma strip_pad (ws1 p ws2 : pystr) :
  Forall is_space ws1 -> Forall is_space ws2 -> strip (ws1 ++ p ++ ws2) = strip p.
Proof.
  intros H1 H2. unfold strip. rewrite lstrip_spaces by exact H1. rewrite lstrip_app.
  destruct (lstrip p) as [|c l] eqn:E.
  - rewrite <- (app_nil_r ws2), lstrip_spaces by exact H2. reflexivity.
  - rewrite rev_app_distr, lstrip_spaces by (apply Forall_rev; exact H2). reflexivity.
Qed.

Lemma strip_fixed (p : pystr) :
  strip p = p -> lstrip p = p /\ lstrip (rev p) = rev p.
Proof.
  intros H. unfold strip in H.
  assert (Hl : lstrip p = p).
  { destruct (lstrip_suffix p) as [pre Hp].
    assert (length (rev (lstrip (rev (lstrip p)))) = length p) by (rewrite H; reflexivity).
    rewrite length_rev in H0.
    pose proof (lstrip_length (rev (lstrip p))). rewrite length_rev in H1.
    assert (length pre = 0%nat) by (rewrite Hp in H0 at 2; rewrite length_app in H0; lia).
    destruct pre; [exact (eq_sym Hp) | cbn in H2; lia]. }
  split; [exact Hl|]. rewrite Hl in H.
  rewrite <- H at 2. rewrite rev_involutive. reflexivity.
Qed.

Lemma strip_spaces (ws : pystr) : Forall is_space ws -> strip ws = [].
Proof.
  intros H. unfold strip. rewrite <- (app_nil_r ws), lstrip_spaces by exact H. reflexivity.
Qed.

Lemma lit_data_colon : u "data: " = u "data:" ++ [32].
Proof. reflexivity. Qed.

(** A [data:] line, once stripped, is [data:] followed by the separator
    and the payload. *)
Lemma strip_data_line (ws1 sp p ws2 : pystr) :
  Forall is_space ws1 -> Forall is_space sp -> Forall is_space ws2 ->
  strip p = p -> p <> [] ->
  strip (ws1 ++ (u "data:" ++ sp ++ p) ++ ws2) = u "data:" ++ sp ++ p.
Proof.
  intros H1 Hsp H2 Hp Hne. rewrite strip_pad by assumption.
  destruct (strip_fixed p Hp) as [Hl Hr].
  unfold strip. change (lstrip (u "data:" ++ sp ++ p)) with (u "data:" ++ sp ++ p).
  rewrite rev_app_distr, rev_app_distr, <- app_assoc, lstrip_app, Hr.
  destruct (rev p) eqn:E; [apply (f_equal (@rev Z)) in E; rewrite rev_involutive in E; cbn in E; congruence|].
  rewrite <- E, !rev_app_distr, !rev_involutive, app_assoc. reflexivity.
Qed.

Lemma strip_data_payload (sp p : pystr) :
  Forall is_space sp -> strip p = p -> p <> [] ->
  (if is_prefix (u "data: ") (u "data:" ++ sp ++ p) then strip (drop 6 (u "data:" ++ sp ++ p))
   else if is_prefix (u "data:") (u "data:" ++ sp ++ p) then strip (drop 5 (u "data:" ++ sp ++ p))
   else u "data:" ++ sp ++ p) = p.
Proof.
  intros Hsp Hp Hne. destruct (strip_fixed p Hp) as [Hl _].
  assert (H5 : drop 5 (u "data:" ++ sp ++ p) = sp ++ p) by reflexivity.
  assert (Hpre5 : is_prefix (u "data:") (u "data:" ++ sp ++ p) = true) by reflexivity.
  destruct sp as [|c sp'].
  - rewrite !app_nil_l in *. destruct p as [|c p']; [congruence|].
    assert (Hc : py_isspace c = false) by (cbn in Hl; destruct (py_isspace c); [|reflexivity];
      pose proof (lstrip_length p'); rewrite Hl in H; cbn in H; lia).
    assert (E6 : is_prefix (u "data: ") (u "data:" ++ c :: p') = (32 =? c) && true).
    { change (is_prefix (u "data: ") (u "data:" ++ c :: p')) with ((32 =? c) && is_prefix [] p').
      reflexivity. }
    rewrite E6. destruct (Z.eqb_spec 32 c) as [<-|_]; [discriminate|].
    rewrite Hpre5, H5. exact Hp.
  - inversion Hsp as [|? ? Hc Hsp']; subst. rewrite <- !app_comm_cons in *.
    destruct (Z.eqb_spec c 32) as [->|Hne32].
    + assert (E6 : is_prefix (u "data: ") (u "data:" ++ 32 :: sp' ++ p) = true) by reflexivity.
      rewrite E6. change (drop 6 (u "data:" ++ 32 :: sp' ++ p)) with (sp' ++ p).
      rewrite <- (app_nil_r (sp' ++ p)), <- app_assoc, strip_pad by (assumption || constructor).
      exact Hp.
    + assert (E6 : is_prefix (u "data: ") (u "data:" ++ c :: sp' ++ p) = false).
      { change (is_prefix (u "data: ") (u "data:" ++ c :: sp' ++ p))
          with ((32 =? c) && is_prefix [] (sp' ++ p)).
        destruct (Z.eqb_spec 32 c); [congruence | reflexivity]. }
      rewrite E6, Hpre5, H5.
      rewrite <- (app_nil_r (c :: sp' ++ p)), app_comm_cons, <- app_assoc, strip_pad
        by (assumption || constructor; assumption).
      exact Hp.
Qed.

Lemma data_line_not_done (sp p : pystr) :
  Forall is_space sp -> strip p = p -> p <> u "[DONE]" ->
  bool_decide (u "data:" ++ sp ++ p = lit_done_line) = false.
Proof.
  intros Hsp Hp Hne. apply bool_decide_eq_false_2. intros E.
  change lit_done_line with (u "data:" ++ u " [DONE]") in E. apply app_inv_head in E.
  destruct (strip_fixed p Hp) as [Hl _].
  destruct sp as [|c [|c' sp'']].
  - cbn in E. subst p. vm_compute in Hl. congruence.
  - cbn in E. injection E as -> E. congruence.
  - inversion Hsp as [|? ? _ Hsp']; subst. inversion Hsp' as [|? ? Hc' _]; subst.
    cbn in E. injection E as -> -> _. vm_compute in Hc'. discriminate.
Qed.

(** ** Credentials *)

Lemma is_prefix_app (p s : pystr) : is_prefix p (p ++ s) = true.
Proof. induction p as [|c p IH]; [reflexivity|]. cbn. rewrite Z.eqb_refl. exact IH. Qed.

Lemma ensure_https_prefix (h : pystr) : is_prefix lit_https (ensure_https h) = true.
Proof.
  unfold ensure_https. destruct (is_prefix lit_https h) eqn:E; [exact E|].
  apply is_prefix_app.
Qed.

(** * Further properties of the code *)

(** Text repair: [fix_mojibake] undoes the corruption it is written for:
    any string of Unicode scalar values, encoded as UTF-8 and read back as
    Latin-1, is restored exactly. *)
Theorem fix_mojibake_repairs_utf8_read_as_latin1 (t : pystr) :
  Forall scalar_value t -> fix_mojibake (utf8_encode t) = t.
Proof.
  intros Ht. rewrite fix_mojibake_eq. unfold latin1_utf8_roundtrip.
  rewrite latin1_encode_bytes.
  - cbn [mbind option_bind]. unfold mbind, option_bind. rewrite utf8_decode_encode by exact Ht.
    reflexivity.
  - unfold utf8_encode. induction Ht as [|c t Hc _ IH]; [constructor|].
    cbn [flat_map]. apply Forall_app; split; [apply utf8_encode_char_bytes, Hc | exact IH].
Qed.

Lemma fix_mojibake_repairs_utf8_read_as_latin1_witness :
  Forall scalar_value [233; 8212; 128512] /\
  fix_mojibake (utf8_encode [233; 8212; 128512]) = [233; 8212; 128512].
Proof.
  assert (H : Forall scalar_value [233; 8212; 128512])
    by (repeat constructor; unfold scalar_value; lia).
  split; [exact H | apply (fix_mojibake_repairs_utf8_read_as_latin1 _ H)].
Defined.

(** Text repair: decoding the whole text at once is only a shortcut: the
    result is always the one of repairing each maximal run of
    U+0080..U+00FF characters on its own. *)
Theorem fix_mojibake_whole_text_is_run_by_run (s : pystr) :
  fix_mojibake s = sub_runs [] s.
Proof. apply fix_mojibake_sub_runs. Qed.

(** Text repair: a character outside U+0080..U+00FF is kept, and the text
    on each side of it is repaired independently. *)
Theorem fix_mojibake_split_outside_block (a b : pystr) (c : Z) :
  ~ (128 <= c <= 255) -> fix_mojibake (a ++ c :: b) = fix_mojibake a ++ c :: fix_mojibake b.
Proof.
  intros Hc. rewrite !fix_mojibake_sub_runs.
  apply sub_runs_split, is_latin1_ext_false, Hc.
Qed.

Lemma fix_mojibake_split_outside_block_witness :
  ~ (128 <= 8364 <= 255) /\
  fix_mojibake ([195; 169] ++ 8364 :: [226; 128; 148]) =
  fix_mojibake [195; 169] ++ 8364 :: fix_mojibake [226; 128; 148].
Proof.
  assert (H : ~ (128 <= 8364 <= 255)) by lia.
  split; [exact H | apply (fix_mojibake_split_outside_block _ _ _ H)].
Defined.

(** Text repair never makes a text longer. *)
Theorem fix_mojibake_never_longer (s : pystr) : (length (fix_mojibake s) <= length s)%nat.
Proof. rewrite fix_mojibake_sub_runs. apply sub_runs_length. Qed.

(** Streaming: for an endpoint known or found to take the agent payload,
    a stream without failure is forwarded chunk by chunk, unchanged, then
    [data: [DONE]]. *)
Theorem agent_stream_forwarded (cache : format_cache) (messages : json) (ep : pystr)
    (up : upstream) (chunks : list json) :
  cache !! ep = Some fmt_agent \/ cache !! ep = None ->
  up (build_agent_inputs messages) = {| att_chunks := chunks; att_error := None |} ->
  (predict_stream cache messages ep up).1 = (map sse_data chunks ++ [sse_done], true).
Proof.
  intros Hc Hup. unfold predict_stream. cbn [fst].
  assert (Hc' : cache !! ep = Some fmt_agent \/
                (cache !! ep = None /\ forall e, att_error {| att_chunks := chunks;
                   att_error := None |} = Some e -> needs_chat_format e = false))
    by (destruct Hc; [left | right; split]; [assumption..| discriminate]).
  rewrite (worker_agent_path cache ep messages up _ Hc' Hup).
  cbn [att_chunks att_error]. rewrite consume_agent_chunks. reflexivity.
Qed.

Lemma agent_stream_forwarded_witness :
  let up : upstream := fun _ => {| att_chunks := [JStr (u "x")]; att_error := None |} in
  ((∅ : format_cache) !! u "ep" = Some fmt_agent \/ (∅ : format_cache) !! u "ep" = None) /\
  up (build_agent_inputs scenario_messages) =
    {| att_chunks := [JStr (u "x")]; att_error := None |} /\
  (predict_stream ∅ scenario_messages (u "ep") up).1 =
    (map sse_data [JStr (u "x")] ++ [sse_done], true).
Proof.
  intros up.
  assert (H1 : (∅ : format_cache) !! u "ep" = Some fmt_agent \/
               (∅ : format_cache) !! u "ep" = None) by (right; reflexivity).
  assert (H2 : up (build_agent_inputs scenario_messages) =
               {| att_chunks := [JStr (u "x")]; att_error := None |}) by reflexivity.
  split; [exact H1|]. split; [exact H2|].
  exact (agent_stream_forwarded ∅ scenario_messages (u "ep") up _ H1 H2).
Defined.

(** Streaming: when an agent-format stream fails with an error that does
    not call for the chat-completion payload, the chunks already received
    are forwarded, then one error event carrying the exception text as is,
    then [data: [DONE]]. *)
Theorem agent_stream_error_forwarded (cache : format_cache) (messages : json) (ep : pystr)
    (up : upstream) (chunks : list json) (e : pystr) :
  cache !! ep = Some fmt_agent \/ (cache !! ep = None /\ needs_chat_format e = false) ->
  up (build_agent_inputs messages) = {| att_chunks := chunks; att_error := Some e |} ->
  (predict_stream cache messages ep up).1 =
  (map sse_data chunks ++ [sse_data (error_event e); sse_done], true).
Proof.
  intros Hc Hup. unfold predict_stream. cbn [fst].
  assert (Hc' : cache !! ep = Some fmt_agent \/
                (cache !! ep = None /\ forall e', att_error {| att_chunks := chunks;
                   att_error := Some e |} = Some e' -> needs_chat_format e' = false)).
  { destruct Hc as [H | [H Hn]]; [left; exact H | right; split; [exact H|]].
    cbn. intros e' [= <-]. exact Hn. }
  rewrite (worker_agent_path cache ep messages up _ Hc' Hup).
  cbn [att_chunks att_error]. rewrite consume_agent_chunks. reflexivity.
Qed.

Lemma agent_stream_error_forwarded_witness :
  ((∅ : format_cache) !! u "ep" = Some fmt_agent \/
   ((∅ : format_cache) !! u "ep" = None /\
    needs_chat_format (u "503 Service Unavailable") = false)) /\
  failing_upstream (build_agent_inputs scenario_messages) =
    {| att_chunks := []; att_error := Some (u "503 Service Unavailable") |} /\
  (predict_stream ∅ scenario_messages (u "ep") failing_upstream).1 =
  (map sse_data [] ++ [sse_data (error_event (u "503 Service Unavailable")); sse_done], true).
Proof.
  assert (H1 : (∅ : format_cache) !! u "ep" = Some fmt_agent \/
               ((∅ : format_cache) !! u "ep" = None /\
                needs_chat_format (u "503 Service Unavailable") = false))
    by (right; split; vm_compute; reflexivity).
  assert (H2 : failing_upstream (build_agent_inputs scenario_messages) =
               {| att_chunks := []; att_error := Some (u "503 Service Unavailable") |})
    by reflexivity.
  split; [exact H1|]. split; [exact H2|].
  exact (agent_stream_error_forwarded ∅ scenario_messages (u "ep") failing_upstream _ _ H1 H2).
Defined.

(** Streaming: when the first probe of an endpoint fails with a
    chat-format error after streaming some chunks, those chunks have
    already been sent to the client, ahead of whatever the retry yields. *)
Theorem fallback_keeps_probe_chunks (cache : format_cache) (messages : json) (ep : pystr)
    (up : upstream) (chunks : list json) (e : pystr) :
  cache !! ep = None ->
  up (build_agent_inputs messages) = {| att_chunks := chunks; att_error := Some e |} ->
  needs_chat_format e = true ->
  exists rest, (predict_stream cache messages ep up).1 = (map sse_data chunks ++ rest, true).
Proof.
  intros Hc Hup Hn. unfold predict_stream. cbn [fst].
  destruct (worker_fallback_prefix cache ep messages up chunks e Hc Hup Hn)
    as (pre & t & Hq & Ht & Hpre).
  rewrite Hq, consume_agent_chunks.
  destruct (consume_ends_done pre t Hpre Ht) as [out Hout]. rewrite Hout.
  eexists. reflexivity.
Qed.

Lemma fallback_keeps_probe_chunks_witness :
  (∅ : format_cache) !! u "ep" = None /\
  partial_then_chat_upstream (build_agent_inputs scenario_messages) =
    {| att_chunks := [JStr (u "partial")]; att_error := Some lit_missing_chat_messages |} /\
  needs_chat_format lit_missing_chat_messages = true /\
  exists rest, (predict_stream ∅ scenario_messages (u "ep") partial_then_chat_upstream).1 =
               (map sse_data [JStr (u "partial")] ++ rest, true).
Proof.
  assert (H1 : (∅ : format_cache) !! u "ep" = None) by reflexivity.
  assert (H2 : partial_then_chat_upstream (build_agent_inputs scenario_messages) =
    {| att_chunks := [JStr (u "partial")]; att_error := Some lit_missing_chat_messages |})
    by reflexivity.
  assert (H3 : needs_chat_format lit_missing_chat_messages = true) by (vm_compute; reflexivity).
  split; [exact H1|]. split; [exact H2|]. split; [exact H3|].
  exact (fallback_keeps_probe_chunks ∅ scenario_messages (u "ep") partial_then_chat_upstream
           _ _ H1 H2 H3).
Defined.

(** Streaming: for an endpoint known to take the chat-completion payload,
    when the translation of every chunk returns without raising, each chunk
    gives the event its translation yields, or nothing, in order;
    the stream then ends with [data: [DONE]], after an error event carrying
    the upstream exception text when the upstream stream failed. *)
Theorem chat_stream_translated (cache : format_cache) (messages : json) (ep : pystr)
    (up : upstream) :
  cache !! ep = Some fmt_chat_completion ->
  Forall (fun c => exists o, convert_chat_completion_chunk c = Ok o)
         (att_chunks (up (build_chat_completion_inputs messages))) ->
  (predict_stream cache messages ep up).1 =
  (flat_map chat_events (att_chunks (up (build_chat_completion_inputs messages))) ++
   match att_error (up (build_chat_completion_inputs messages)) with
   | None => [sse_done]
   | Some e => [sse_data (error_event e); sse_done]
   end, true).
Proof.
  intros Hc Hok. unfold predict_stream. cbn [fst].
  rewrite (worker_chat_cached cache ep messages up Hc).
  rewrite (consume_chat_chunks _ _ Hok).
  destruct (att_error _); reflexivity.
Qed.

Lemma chat_stream_translated_witness :
  let cache : format_cache := <[u "ep" := fmt_chat_completion]> ∅ in
  cache !! u "ep" = Some fmt_chat_completion /\
  Forall (fun c => exists o, convert_chat_completion_chunk c = Ok o)
         (att_chunks (chat_only_upstream (build_chat_completion_inputs scenario_messages))) /\
  (predict_stream cache scenario_messages (u "ep") chat_only_upstream).1 =
  (flat_map chat_events
     (att_chunks (chat_only_upstream (build_chat_completion_inputs scenario_messages))) ++
   match att_error (chat_only_upstream (build_chat_completion_inputs scenario_messages)) with
   | None => [sse_done]
   | Some e => [sse_data (error_event e); sse_done]
   end, true).
Proof.
  intros cache.
  assert (H1 : cache !! u "ep" = Some fmt_chat_completion)
    by (unfold cache; apply lookup_insert_eq).
  assert (H2 : Forall (fun c => exists o, convert_chat_completion_chunk c = Ok o)
         (att_chunks (chat_only_upstream (build_chat_completion_inputs scenario_messages))))
    by (vm_compute; repeat constructor; eexists; reflexivity).
  split; [exact H1|]. split; [exact H2|].
  exact (chat_stream_translated cache scenario_messages (u "ep") chat_only_upstream H1 H2).
Defined.

(** Streaming: on a chat-completion endpoint, a chunk whose translation
    raises ends the stream there: the events of the chunks before it, one
    error event with the exception text, [data: [DONE]], and nothing of
    the chunks after it or of the upstream's own outcome. *)
Theorem chat_translation_error_ends_stream (cache : format_cache) (messages : json)
    (ep : pystr) (up : upstream) (pre post : list json) (c : json) (ex : pyexn) :
  cache !! ep = Some fmt_chat_completion ->
  att_chunks (up (build_chat_completion_inputs messages)) = pre ++ c :: post ->
  Forall (fun c => exists o, convert_chat_completion_chunk c = Ok o) pre ->
  convert_chat_completion_chunk c = Raise ex ->
  (predict_stream cache messages ep up).1 =
  (flat_map chat_events pre ++ [sse_data (error_event (exn_text ex)); sse_done], true).
Proof.
  intros Hc Hch Hpre Hex. unfold predict_stream. cbn [fst].
  rewrite (worker_chat_cached cache ep messages up Hc), Hch, map_app, <- app_assoc.
  cbn [map app]. exact (consume_chat_raise pre c ex _ Hpre Hex).
Qed.

Lemma chat_translation_error_ends_stream_witness :
  let cache : format_cache := <[u "ep" := fmt_chat_completion]> ∅ in
  let bad := JDict [(u "object", JStr lit_chunk_object); (u "choices", JList [JStr (u "x")])] in
  let up : upstream := fun _ =>
    {| att_chunks := [bad; chat_chunk (u "late")]; att_error := None |} in
  cache !! u "ep" = Some fmt_chat_completion /\
  att_chunks (up (build_chat_completion_inputs scenario_messages)) =
    [] ++ bad :: [chat_chunk (u "late")] /\
  Forall (fun c => exists o, convert_chat_completion_chunk c = Ok o) [] /\
  convert_chat_completion_chunk bad = Raise (AttributeError (u "'str' object has no attribute 'get'")) /\
  (predict_stream cache scenario_messages (u "ep") up).1 =
  (flat_map chat_events [] ++ [sse_data (error_event (exn_text (AttributeError (u "'str' object has no attribute 'get'")))); sse_done], true).
Proof.
  intros cache bad up.
  assert (H1 : cache !! u "ep" = Some fmt_chat_completion)
    by (unfold cache; apply lookup_insert_eq).
  assert (H2 : att_chunks (up (build_chat_completion_inputs scenario_messages)) =
               [] ++ bad :: [chat_chunk (u "late")]) by reflexivity.
  assert (H3 : Forall (fun c => exists o, convert_chat_completion_chunk c = Ok o) [])
    by constructor.
  assert (H4 : convert_chat_completion_chunk bad = Raise (AttributeError (u "'str' object has no attribute 'get'"))) by reflexivity.
  split; [exact H1|]. split; [exact H2|]. split; [exact H3|]. split; [exact H4|].
  exact (chat_translation_error_ends_stream cache scenario_messages (u "ep") up
           [] [chat_chunk (u "late")] bad (AttributeError (u "'str' object has no attribute 'get'")) H1 H2 H3 H4).
Defined.

(** Format cache: the cache only ever holds ["agent"] or
    ["chat_completion"]; successive calls keep it so. *)
Theorem cache_holds_known_formats (cache : format_cache) (calls : list call) :
  map_Forall (fun _ v => v = fmt_agent \/ v = fmt_chat_completion) cache ->
  map_Forall (fun _ v => v = fmt_agent \/ v = fmt_chat_completion) (run_calls cache calls).1.
Proof. apply run_calls_values. Qed.

Lemma cache_holds_known_formats_witness :
  let calls := [{| call_endpoint := u "ep"; call_messages := scenario_messages;
                   call_upstream := chat_only_upstream |}] in
  map_Forall (fun _ v => v = fmt_agent \/ v = fmt_chat_completion) (∅ : format_cache) /\
  map_Forall (fun _ v => v = fmt_agent \/ v = fmt_chat_completion) (run_calls ∅ calls).1.
Proof.
  intros calls.
  assert (H : map_Forall (fun _ v => v = fmt_agent \/ v = fmt_chat_completion)
                (∅ : format_cache)) by apply map_Forall_empty.
  split; [exact H | exact (cache_holds_known_formats ∅ calls H)].
Defined.

(** Format cache: after a series of calls, every endpoint in the cache was
    either there before or the endpoint of one of the calls. *)
Theorem cache_keys_from_calls (cache : format_cache) (calls : list call) (k : pystr) :
  (run_calls cache calls).1 !! k <> None ->
  cache !! k <> None \/ exists c, In c calls /\ call_endpoint c = k.
Proof. apply run_calls_keys. Qed.

Lemma cache_keys_from_calls_witness :
  let calls := [{| call_endpoint := u "ep"; call_messages := scenario_messages;
                   call_upstream := chat_only_upstream |}] in
  (run_calls ∅ calls).1 !! u "ep" <> None /\
  ((∅ : format_cache) !! u "ep" <> None \/ exists c, In c calls /\ call_endpoint c = u "ep").
Proof.
  intros calls.
  assert (H : (run_calls ∅ calls).1 !! u "ep" <> None) by (vm_compute; discriminate).
  split; [exact H | exact (cache_keys_from_calls ∅ calls (u "ep") H)].
Defined.

(** Configuration: an agent returned by [get_agent_by_id] is a dict with
    an [endpoint_name] key, whose value is the requested id or the
    [endpoint_name] of an entry of the list. *)
Theorem get_agent_by_id_sets_endpoint_name (agents : list json) (agent_id : pystr) (a : json) :
  get_agent_by_id agents agent_id = Ok (Some a) ->
  exists kvs v, a = JDict kvs /\ dict_lookup kvs (u "endpoint_name") = Some v /\
    (v = JStr agent_id \/
     exists kvs0, In (JDict kvs0) agents /\ dict_lookup kvs0 (u "endpoint_name") = Some v).
Proof. apply get_agent_endpoint. Qed.

Lemma get_agent_by_id_sets_endpoint_name_witness :
  let agents := [JDict [(u "id", JStr (u "a1"))]] in
  get_agent_by_id agents (u "a1") =
    Ok (Some (JDict [(u "id", JStr (u "a1")); (u "endpoint_name", JStr (u "a1"))])) /\
  exists kvs v, JDict [(u "id", JStr (u "a1")); (u "endpoint_name", JStr (u "a1"))] = JDict kvs /\
    dict_lookup kvs (u "endpoint_name") = Some v /\
    (v = JStr (u "a1") \/
     exists kvs0, In (JDict kvs0) agents /\ dict_lookup kvs0 (u "endpoint_name") = Some v).
Proof.
  intros agents.
  assert (H : get_agent_by_id agents (u "a1") =
    Ok (Some (JDict [(u "id", JStr (u "a1")); (u "endpoint_name", JStr (u "a1"))])))
    by (vm_compute; reflexivity).
  split; [exact H | exact (get_agent_by_id_sets_endpoint_name agents (u "a1") _ H)].
Defined.

(** Configuration: lookup scans the list in order and the first matching
    entry wins: on a concatenation, the second list is consulted only when
    nothing in the first matches (and nothing in it raises). *)
Theorem get_agent_by_id_first_match (l1 l2 : list json) (agent_id : pystr) :
  get_agent_by_id (l1 ++ l2) agent_id =
  match get_agent_by_id l1 agent_id with
  | Ok None => get_agent_by_id l2 agent_id
  | r => r
  end.
Proof. apply get_agent_app. Qed.

(** Dispatch: whenever the app.py route forwards a request to a serving
    endpoint, the router's non-streaming path invokes a handler bound to
    that same endpoint. *)
Theorem routes_agree_on_endpoint (agents : list json) (agent_id : pystr) (messages ep : json) :
  app_invoke_endpoint agents agent_id messages = (DModelServing ep messages, [ENetworkCall]) ->
  exists h, router_invoke_endpoint agents agent_id messages false =
            (DInvoke h messages, [EConstructHandler; ENetworkCall]) /\ h_endpoint_name h = ep.
Proof.
  unfold app_invoke_endpoint, router_invoke_endpoint. intros H.
  destruct (get_agent_by_id agents agent_id) as [agent|e]; [|discriminate].
  destruct (agent_found agent) as [a|]; [|discriminate].
  destruct (py_get a (u "deployment_type") (JStr (u "databricks-endpoint"))) as [dt|e];
    [|discriminate].
  destruct (json_is_str dt (u "databricks-endpoint")) eqn:Edt;
    [|destruct (json_is_str dt (u "langchain-agent")); discriminate].
  apply json_is_str_true in Edt. subst dt. rewrite lookup_handler_databricks.
  destruct (py_get a (u "endpoint_name") JNull) as [epv|e] eqn:Eep; [|discriminate].
  destruct (truthy epv) eqn:Tr; [|discriminate].
  injection H as <-. cbn [construct_handler]. rewrite Eep. cbn [rbind]. rewrite Tr.
  eexists. split; reflexivity.
Qed.

Lemma routes_agree_on_endpoint_witness :
  let agents := [JDict [(u "id", JStr (u "a3")); (u "endpoint_name", JStr (u "ep-3"))]] in
  app_invoke_endpoint agents (u "a3") scenario_messages =
    (DModelServing (JStr (u "ep-3")) scenario_messages, [ENetworkCall]) /\
  exists h, router_invoke_endpoint agents (u "a3") scenario_messages false =
            (DInvoke h scenario_messages, [EConstructHandler; ENetworkCall]) /\
            h_endpoint_name h = JStr (u "ep-3").
Proof.
  intros agents.
  assert (H : app_invoke_endpoint agents (u "a3") scenario_messages =
              (DModelServing (JStr (u "ep-3")) scenario_messages, [ENetworkCall]))
    by (vm_compute; reflexivity).
  split; [exact H | exact (routes_agree_on_endpoint agents (u "a3") scenario_messages _ H)].
Defined.

(** Router's stream parser: a [[DONE]] marker line, with or without the
    [data: ] prefix and with any surrounding whitespace, is forwarded as
    [data: [DONE]] and the loop goes on with the next line. *)
Theorem invoke_stream_done_marker_continues (loads : pystr -> option json)
    (ws1 m ws2 : pystr) (rest : list pystr) :
  Forall is_space ws1 -> Forall is_space ws2 -> m = lit_done_line \/ m = u "[DONE]" ->
  invoke_stream_lines loads ((ws1 ++ m ++ ws2) :: rest) =
  let '(out, err) := invoke_stream_lines loads rest in
  ((lit_done_line ++ [10; 10]) :: out, err).
Proof.
  intros H1 H2 Hm.
  assert (Hs : strip (ws1 ++ m ++ ws2) = m)
    by (rewrite strip_pad by assumption; destruct Hm as [-> | ->]; reflexivity).
  assert (Hne : m <> []) by (destruct Hm as [-> | ->]; vm_compute; discriminate).
  assert (Hl : ws1 ++ m ++ ws2 <> []).
  { intros E. apply (f_equal (@length Z)) in E. rewrite !length_app in E.
    destruct m; [congruence | cbn in E; lia]. }
  assert (Hd : bool_decide (m = lit_done_line) || bool_decide (m = u "[DONE]") = true)
    by (destruct Hm as [-> | ->]; vm_compute; reflexivity).
  assert (E : invoke_stream_line loads (ws1 ++ m ++ ws2) = Ok (Some (lit_done_line ++ [10; 10]))).
  { unfold invoke_stream_line. rewrite Hs, (bool_decide_eq_false_2 _ Hl),
      (bool_decide_eq_false_2 _ Hne), Hd. reflexivity. }
  cbn [invoke_stream_lines]. rewrite E. reflexivity.
Qed.

Lemma invoke_stream_done_marker_continues_witness :
  let loads : pystr -> option json := fun _ => None in
  Forall is_space [32] /\ Forall is_space [9] /\
  (u "[DONE]" = lit_done_line \/ u "[DONE]" = u "[DONE]") /\
  invoke_stream_lines loads (([32] ++ u "[DONE]" ++ [9]) :: [u "data: {}"]) =
  let '(out, err) := invoke_stream_lines loads [u "data: {}"] in
  ((lit_done_line ++ [10; 10]) :: out, err).
Proof.
  intros loads.
  assert (H1 : Forall is_space [32]) by (repeat constructor).
  assert (H2 : Forall is_space [9]) by (repeat constructor).
  assert (H3 : u "[DONE]" = lit_done_line \/ u "[DONE]" = u "[DONE]") by (right; reflexivity).
  split; [exact H1|]. split; [exact H2|]. split; [exact H3|].
  exact (invoke_stream_done_marker_continues loads [32] (u "[DONE]") [9] _ H1 H2 H3).
Defined.

(** Router's stream parser: for a [data:] line whose payload [p] is
    non-empty, already stripped and not [[DONE]], with any whitespace
    around the line and between [data:] and [p]: when [p] does not parse
    the line is skipped; when it parses to a dict the line is forwarded as
    [data: p] with [p] verbatim, not re-serialized; when it parses to any
    other value [event.get] raises [AttributeError] ([str(e)] naming the
    value's type) and the rest of the response is lost. *)
Theorem invoke_stream_data_line (loads : pystr -> option json)
    (ws1 sp p ws2 : pystr) (rest : list pystr) :
  Forall is_space ws1 -> Forall is_space sp -> Forall is_space ws2 ->
  strip p = p -> p <> [] -> p <> u "[DONE]" ->
  invoke_stream_lines loads ((ws1 ++ (u "data:" ++ sp ++ p) ++ ws2) :: rest) =
  match loads p with
  | None => invoke_stream_lines loads rest
  | Some (JDict _) =>
    let '(out, err) := invoke_stream_lines loads rest in
    ((u "data: " ++ p ++ [10; 10]) :: out, err)
  | Some event => ([], Some (no_attribute event (u "get")))
  end.
Proof.
  intros H1 Hsp H2 Hp Hne Hnd.
  assert (Hs := strip_data_line ws1 sp p ws2 H1 Hsp H2 Hp Hne).
  assert (Hl : ws1 ++ (u "data:" ++ sp ++ p) ++ ws2 <> []).
  { intros E. apply (f_equal (@length Z)) in E. rewrite !length_app in E.
    change (length (u "data:")) with 5%nat in E. cbn [length] in E. lia. }
  assert (Hsne : u "data:" ++ sp ++ p <> []) by (vm_compute; discriminate).
  assert (Hd2 : bool_decide (u "data:" ++ sp ++ p = u "[DONE]") = false).
  { apply bool_decide_eq_false_2. intros E. vm_compute in E. congruence. }
  assert (E : invoke_stream_line loads (ws1 ++ (u "data:" ++ sp ++ p) ++ ws2) =
              match loads p with
              | None => Ok None
              | Some event => let* _ := py_get event (u "id") JNull in
                              Ok (Some (u "data: " ++ p ++ [10; 10]))
              end).
  { unfold invoke_stream_line. rewrite Hs, (bool_decide_eq_false_2 _ Hl),
      (bool_decide_eq_false_2 _ Hsne), (data_line_not_done sp p Hsp Hp Hnd), Hd2.
    cbv zeta. cbn [orb]. rewrite (strip_data_payload sp p Hsp Hp Hne).
    rewrite (bool_decide_eq_false_2 _ Hne). reflexivity. }
  cbn [invoke_stream_lines]. rewrite E.
  destruct (loads p) as [[| | | | |kvs]|]; reflexivity.
Qed.

Lemma invoke_stream_data_line_witness :
  let loads : pystr -> option json := fun s =>
    if bool_decide (s = u "{}") then Some (JDict []) else None in
  Forall is_space [] /\ Forall is_space [32] /\ Forall is_space [13] /\
  strip (u "{}") = u "{}" /\ u "{}" <> [] /\ u "{}" <> u "[DONE]" /\
  invoke_stream_lines loads (([] ++ (u "data:" ++ [32] ++ u "{}") ++ [13]) :: []) =
  match loads (u "{}") with
  | None => invoke_stream_lines loads []
  | Some (JDict _) =>
    let '(out, err) := invoke_stream_lines loads [] in
    ((u "data: " ++ u "{}" ++ [10; 10]) :: out, err)
  | Some event => ([], Some (no_attribute event (u "get")))
  end.
Proof.
  intros loads.
  assert (H1 : Forall is_space (@nil Z)) by constructor.
  assert (H2 : Forall is_space [32]) by (repeat constructor).
  assert (H3 : Forall is_space [13]) by (repeat constructor).
  assert (H4 : strip (u "{}") = u "{}") by reflexivity.
  assert (H5 : u "{}" <> []) by (vm_compute; discriminate).
  assert (H6 : u "{}" <> u "[DONE]") by (vm_compute; congruence).
  do 6 (split; [assumption|]).
  exact (invoke_stream_data_line loads [] [32] (u "{}") [13] [] H1 H2 H3 H4 H5 H6).
Defined.

(** Router's stream parser: an empty or whitespace-only line yields
    nothing and the loop goes on. *)
Theorem invoke_stream_blank_line (loads : pystr -> option json) (line : pystr)
    (rest : list pystr) :
  Forall is_space line ->
  invoke_stream_lines loads (line :: rest) = invoke_stream_lines loads rest.
Proof.
  intros H.
  assert (E : invoke_stream_line loads line = Ok None).
  { unfold invoke_stream_line. destruct (bool_decide (line = [])); [reflexivity|].
    rewrite (strip_spaces line H). reflexivity. }
  cbn [invoke_stream_lines]. rewrite E. reflexivity.
Qed.

Lemma invoke_stream_blank_line_witness :
  Forall is_space [32; 9] /\
  invoke_stream_lines (fun _ => None) ([32; 9] :: [u "[DONE]"]) =
  invoke_stream_lines (fun _ => None) [u "[DONE]"].
Proof.
  assert (H : Forall is_space [32; 9]) by (repeat constructor).
  split; [exact H | exact (invoke_stream_blank_line (fun _ => None) _ _ H)].
Defined.

(** Credentials: whenever [get_databricks_credentials] returns, the host
    starts with [https://] and the token is non-empty, whether they come
    from the SDK or from the environment. *)
Theorem credentials_https_and_token (sdk : result sdk_config) (env_host env_token : pystr)
    (host : pystr) (token : json) :
  get_databricks_credentials sdk env_host env_token = Ok (host, token) ->
  is_prefix lit_https host = true /\ truthy token = true.
Proof.
  unfold get_databricks_credentials. intros H.
  destruct (credentials_from_sdk sdk) as [[h t]|e] eqn:E.
  - injection H as <- <-. unfold credentials_from_sdk in E.
    destruct sdk as [w|e]; cbn [rbind] in E; [|discriminate].
    destruct (if truthy (cfg_token w) then Ok (cfg_token w) else _) as [tok|e];
      cbn [rbind] in E; [|discriminate].
    destruct (negb (truthy (cfg_host w)) || negb (truthy tok)) eqn:T; [discriminate|].
    apply orb_false_elim in T as [_ T]. apply negb_false_iff in T.
    destruct (cfg_host w); try discriminate. injection E as <- <-.
    split; [apply ensure_https_prefix | exact T].
  - destruct (bool_decide (env_host = []) || bool_decide (env_token = [])) eqn:B;
      [discriminate|].
    injection H as <- <-. apply orb_false_elim in B as [_ B].
    split; [apply ensure_https_prefix|]. cbn. rewrite B. reflexivity.
Qed.

Lemma credentials_https_and_token_witness :
  get_databricks_credentials
    (Raise (ValueError (u "default auth: cannot configure default credentials"))) (u "adb-1.azuredatabricks.net") (u "tok") =
    Ok (u "https://adb-1.azuredatabricks.net", JStr (u "tok")) /\
  is_prefix lit_https (u "https://adb-1.azuredatabricks.net") = true /\
  truthy (JStr (u "tok")) = true.
Proof.
  assert (H : get_databricks_credentials
    (Raise (ValueError (u "default auth: cannot configure default credentials"))) (u "adb-1.azuredatabricks.net")
                (u "tok") = Ok (u "https://adb-1.azuredatabricks.net", JStr (u "tok")))
    by (vm_compute; reflexivity).
  split; [exact H | exact (credentials_https_and_token _ _ _ _ _ H)].
Defined.
